(** * Photo sharing gallery: session store, gallery access, upload pipeline

    A shallow embedding of the client-side logic of the photo gallery
    (the authentication script and [js/app.js]) together with the
    properties its specification states about it.

    Conventions used throughout.
    - Time is the time value of a JavaScript [Date]: an integer number of
      milliseconds, as a [Z].
    - An [async] function is modelled as one atomic transition that receives
      the outcome of the awaited operation (the HTTP response, the XHR
      result) as an argument; handlers that could interleave at an [await]
      are not modelled.
    - The browser's own functions ([JSON.parse], [atob], [parseInt],
      [Date], the message of a [TypeError]) are not code of the program;
      where the program's behaviour depends on what they return they are
      section variables. *)

From Stdlib Require Import String Ascii ZArith List Bool Lia.
From Stdlib Require Import DecimalString.
Import ListNotations.

Local Open Scope string_scope.
Local Open Scope Z_scope.

Set Warnings "-register-all".

(** ** JavaScript values and exceptions *)

(** A completion of an expression that may throw: a value, or an exception
    with its [message]. *)
Inductive Result (A : Type) : Type :=
| Ok (a : A)
| Throw (message : string).
Arguments Ok {A} a.
Arguments Throw {A} message.

Definition bindR {A B} (r : Result A) (k : A -> Result B) : Result B :=
  match r with
  | Ok a => k a
  | Throw m => Throw m
  end.

Notation "x <- c ;; k" := (bindR c (fun x => k))
  (at level 61, c at next level, right associativity).

Fixpoint mapR {A B} (f : A -> Result B) (l : list A) : Result (list B) :=
  match l with
  | [] => Ok []
  | x :: xs => y <- f x ;; ys <- mapR f xs ;; Ok (y :: ys)
  end.

(** Truthiness of a string: only the empty string is falsy. *)
Definition truthyString (s : string) : bool :=
  negb (String.eqb s "").

(** An optional string property: [None] is [undefined] (property absent). *)
Definition truthyField (o : option string) : bool :=
  match o with
  | Some s => truthyString s
  | None => false
  end.

(** [a || b] on optional strings. *)
Definition jsOr (a b : option string) : option string :=
  if truthyField a then a else b.

(** Decimal rendering of an integer inside a template string. *)
Definition decimal (n : Z) : string :=
  NilZero.string_of_int (Z.to_int n).

(** [s.split(sep)] for a one-character separator. *)
Fixpoint split (sep : ascii) (s : string) : list string :=
  match s with
  | EmptyString => [EmptyString]
  | String c rest =>
      if Ascii.eqb c sep then EmptyString :: split sep rest
      else match split sep rest with
           | [] => [String c EmptyString]
           | p :: ps => String c p :: ps
           end
  end.

(** [msg] has [part] as a contiguous substring. *)
Definition contains (part msg : string) : Prop :=
  exists pre post, msg = pre ++ part ++ post.

(** ** Session store (the authentication script) *)

Module Auth.

(** What the program does with a [tokenExpiry] value [v] is
    [v && new Date(v) > new Date()] and [new Date(v) <= new Date()]; the
    value is therefore kept as what these two operations see of it. *)
Inductive Expiry : Type :=
| NoExpiry                 (* null, absent, or another falsy value *)
| InvalidDate              (* truthy, [new Date(v)] is an Invalid Date *)
| ExpiresAt (ms : Z).      (* truthy, [new Date(v)] has time value [ms] *)

(** [window.authStatus]. [token] is [None] when the property holds
    [undefined] (and is then dropped by [JSON.stringify]). *)
Record AuthStatus : Type := mkAuthStatus {
  isAuthenticated : bool;
  username : string;
  token : option string;
  tokenExpiry : Expiry;
  loading : bool
}.

Definition set_loading (b : bool) (a : AuthStatus) : AuthStatus :=
  mkAuthStatus (isAuthenticated a) (username a) (token a) (tokenExpiry a) b.

(** The object literal [window.authStatus] starts from, which is also the
    one [clearAuthData] assigns. *)
Definition emptyAuthStatus : AuthStatus :=
  mkAuthStatus false "" (Some "") NoExpiry false.

(** The argument of [setAuthenticatedUser]: the properties it reads. *)
Record TokenData : Type := mkTokenData {
  td_username : option string;
  td_token : option string;
  td_id_token : option string;
  td_access_token : option string;
  td_expires_in : option Z
}.

(** The payload of an identity token: the properties read from it. *)
Record Payload : Type := mkPayload {
  p_name : option string;
  p_email : option string;
  p_username : option string
}.

(** The text stored under the key ["photoGalleryAuth"]. The program only
    ever stores [JSON.stringify(window.authStatus)]; the other two cases are
    what else the storage can hold. *)
Inductive StoredItem : Type :=
| EmptyText                       (* the empty string: falsy *)
| Malformed                       (* [JSON.parse] or the property read throws *)
| SessionText (saved : AuthStatus).  (* the JSON text of a session object *)

(** The part of the browser the script reads and writes. [dispatched] is
    the sequence of [auth:statusChanged] events so far, each with the value
    of [window.authStatus] a listener reads when it is called (listeners run
    synchronously inside [dispatchEvent]). *)
Record Window : Type := mkWindow {
  authStatus : AuthStatus;
  localStorage : option StoredItem;
  urlCode : option string;
  dispatched : list AuthStatus
}.

Definition set_authStatus (a : AuthStatus) (w : Window) : Window :=
  mkWindow a (localStorage w) (urlCode w) (dispatched w).
Definition set_localStorage (i : option StoredItem) (w : Window) : Window :=
  mkWindow (authStatus w) i (urlCode w) (dispatched w).
Definition set_urlCode (c : option string) (w : Window) : Window :=
  mkWindow (authStatus w) (localStorage w) c (dispatched w).

(** [window.dispatchEvent(authStatusChangedEvent)]. *)
Definition dispatchEvent (w : Window) : Window :=
  mkWindow (authStatus w) (localStorage w) (urlCode w)
           (dispatched w ++ [authStatus w]).

(** A parsed session object passed as token data: it has the five
    properties of [AuthStatus] and none of [id_token], [access_token],
    [expires_in]. *)
Definition tokenDataOfSaved (saved : AuthStatus) : TokenData :=
  mkTokenData (Some (username saved)) (token saved) None None None.

Definition secondsToMs (s : Z) : Z := s * 1000.

Section WithDecoder.

(** [JSON.parse(atob(part))]: the decoded payload, or the exception. *)
Variable decodePayload : string -> Result Payload.

(** The default expiry of one hour. *)
Definition defaultExpiresIn : Z := 3600.

Definition expiresInOf (tokenData : TokenData) : Z :=
  match td_expires_in tokenData with
  | Some n => if n =? 0 then defaultExpiresIn else n
  | None => defaultExpiresIn
  end.

(** The user name extracted from an identity token; ["User"] when the token
    has not three parts, when decoding throws, or when the payload names
    nobody. *)
Definition usernameOfIdToken (id_token : string) : string :=
  match split "."%char id_token with
  | [_; middle; _] =>
      match decodePayload middle with
      | Ok payload =>
          match jsOr (jsOr (p_name payload) (p_email payload))
                     (p_username payload) with
          | Some n => if truthyString n then n else "User"
          | None => "User"
          end
      | Throw _ => "User"
      end
  | _ => "User"
  end.

Definition usernameOf (tokenData : TokenData) : string :=
  let fromIdToken :=
    match td_id_token tokenData with
    | Some t => if truthyString t then usernameOfIdToken t else "User"
    | None => "User"
    end in
  match td_username tokenData with
  | Some u => if truthyString u then u else fromIdToken
  | None => fromIdToken
  end.

(** [setAuthenticatedUser(tokenData)] run at time [now]. The local-time
    offset is taken constant over the interval added, so that [setSeconds]
    adds exactly [expiresIn] seconds to the time value. The assignment to
    [AWS.config.credentials] touches no state of the script and is left
    out. *)
Definition setAuthenticatedUser (now : Z) (tokenData : TokenData)
    (w : Window) : Window :=
  let expiresIn := expiresInOf tokenData in
  let expiryTime := now + secondsToMs expiresIn in
  let status :=
    mkAuthStatus true (usernameOf tokenData)
      (jsOr (jsOr (td_id_token tokenData) (td_access_token tokenData))
            (td_token tokenData))
      (ExpiresAt expiryTime) false in
  dispatchEvent
    (set_localStorage (Some (SessionText status)) (set_authStatus status w)).

Definition clearAuthData (w : Window) : Window :=
  dispatchEvent (set_localStorage None (set_authStatus emptyAuthStatus w)).

Definition logoutUser (w : Window) : Window := clearAuthData w.

(** The token data built from an authorization code. *)
Definition authDataOfCode (authCode : string) : TokenData :=
  mkTokenData (Some "Authenticated User")
    (Some ("cognito-token-" ++ substring 0 8 authCode))
    (Some ("id-" ++ authCode))
    (Some ("access-" ++ authCode))
    (Some 3600).

(** [new Date(authData.tokenExpiry) > new Date()], guarded by the
    truthiness of [authData.tokenExpiry]. *)
Definition notExpired (now : Z) (e : Expiry) : bool :=
  match e with
  | ExpiresAt ms => now <? ms
  | InvalidDate => false
  | NoExpiry => false
  end.

(** Whether [urlParams.get("code")] is truthy. *)
Definition hasCode (w : Window) : bool :=
  match urlCode w with
  | Some authCode => truthyString authCode
  | None => false
  end.

(** The [else] branch of [checkAuthFromHash]: restore from storage. *)
Definition restoreSession (now : Z) (w : Window) : Window :=
  match localStorage w with
  | Some (SessionText authData) =>
      if notExpired now (tokenExpiry authData)
      then setAuthenticatedUser now (tokenDataOfSaved authData) w
      else clearAuthData w
  | Some Malformed => clearAuthData w
  | Some EmptyText => w
  | None => w
  end.

(** The two branches of [checkAuthFromHash]: exchange the code of the URL,
    or restore from storage. *)
Definition exchangeOrRestore (now : Z) (w : Window) : Window :=
  match urlCode w with
  | Some authCode =>
      if truthyString authCode
      then set_urlCode None
             (setAuthenticatedUser now (authDataOfCode authCode) w)
      else restoreSession now w
  | None => restoreSession now w
  end.

(** [window.checkAuthFromHash()] run at time [now]. *)
Definition checkAuthFromHash (now : Z) (w : Window) : Window :=
  let w := set_authStatus (set_loading true (authStatus w)) w in
  let w := exchangeOrRestore now w in
  let w := set_authStatus (set_loading false (authStatus w)) w in
  dispatchEvent w.

(** The body of the expiry interval (every 60000 ms), run at time [now]. *)
Definition expiryCheck (now : Z) (w : Window) : Window :=
  match tokenExpiry (authStatus w) with
  | ExpiresAt expiryTime =>
      if expiryTime <=? now then clearAuthData w else w
  | InvalidDate => w
  | NoExpiry => w
  end.

(** [redirectToLogin] and [redirectToRegister], up to the navigation. *)
Definition redirectToLogin (w : Window) : Window :=
  dispatchEvent (set_authStatus (set_loading true (authStatus w)) w).
Definition redirectToRegister (w : Window) : Window :=
  dispatchEvent (set_authStatus (set_loading true (authStatus w)) w).

(** The [load] listener of [js/app.js]: with a code in the URL it sets the
    loading flag before the deferred call of [checkAuthFromHash]. *)
Definition loadListener (w : Window) : Window :=
  match urlCode w with
  | Some authCode =>
      if truthyString authCode
      then set_authStatus (set_loading true (authStatus w)) w
      else w
  | None => w
  end.

(** A page load: the script runs again, [window.authStatus] is the initial
    object, the storage is kept, and the URL carries [code] or not. *)
Definition pageLoad (code : option string) (w : Window) : Window :=
  mkWindow emptyAuthStatus (localStorage w) code [].

(** The very first page load, with nothing stored. *)
Definition freshWindow (code : option string) : Window :=
  mkWindow emptyAuthStatus None code [].

(** The public operations, each with the time at which it runs. *)
Inductive Op : Type :=
| OpPageLoad (code : option string)
| OpCheckAuth
| OpLogout
| OpExpiryCheck
| OpRedirectToLogin
| OpRedirectToRegister
| OpLoadListener.

Definition runOp (now : Z) (op : Op) (w : Window) : Window :=
  match op with
  | OpPageLoad code => pageLoad code w
  | OpCheckAuth => checkAuthFromHash now w
  | OpLogout => logoutUser w
  | OpExpiryCheck => expiryCheck now w
  | OpRedirectToLogin => redirectToLogin w
  | OpRedirectToRegister => redirectToRegister w
  | OpLoadListener => loadListener w
  end.

(** [reachable now w]: [w] is a state of the script at time [now], reached
    from a first page load by public operations at non-decreasing times. *)
Inductive reachable : Z -> Window -> Prop :=
| reach_fresh : forall now code, reachable now (freshWindow code)
| reach_step : forall t now op w,
    reachable t w -> t <= now -> reachable now (runOp now op w).

End WithDecoder.

(** A session as [setAuthenticatedUser] leaves it when it ran at some time
    [setAt] not after [now]: a non-empty token and an expiry one hour after
    [setAt]. *)
Definition setBefore (now : Z) (a : AuthStatus) : Prop :=
  exists tok setAt,
    token a = Some tok /\ tok <> "" /\ setAt <= now /\
    tokenExpiry a = ExpiresAt (setAt + secondsToMs 3600).

(** The invariant of the reachable states. *)
Definition sessionInvariant (now : Z) (w : Window) : Prop :=
  (isAuthenticated (authStatus w) = true -> setBefore now (authStatus w)) /\
  (forall saved, localStorage w = Some (SessionText saved) ->
                 setBefore now saved).

(** The stored copy of an authenticated session agrees with it, and the
    session has a name. *)
Definition persistedCopyAgrees (w : Window) : Prop :=
  isAuthenticated (authStatus w) = true ->
  username (authStatus w) <> ""
  /\ exists saved,
       localStorage w = Some (SessionText saved)
       /\ isAuthenticated saved = true
       /\ username saved = username (authStatus w)
       /\ token saved = token (authStatus w)
       /\ tokenExpiry saved = tokenExpiry (authStatus w).

End Auth.

(** ** Parsed JSON *)

Module Json.

(** A value produced by [JSON.parse], or [undefined] (a missing property).
    Numbers are integers here; the program only tests them for
    truthiness. *)
Inductive JValue : Type :=
| JUndefined
| JNull
| JBool (b : bool)
| JNum (n : Z)
| JStr (s : string)
| JArr (elems : list JValue)
| JObj (fields : list (string * JValue)).

(** The result of [parseInt]. *)
Inductive JNumber : Type :=
| NaN
| Num (n : Z).

Definition truthy (v : JValue) : bool :=
  match v with
  | JUndefined => false
  | JNull => false
  | JBool b => b
  | JNum n => negb (n =? 0)
  | JStr s => truthyString s
  | JArr _ => true
  | JObj _ => true
  end.

Definition nullish (v : JValue) : bool :=
  match v with
  | JUndefined => true
  | JNull => true
  | _ => false
  end.


(** The own property [k] of a parsed object (its keys are distinct). *)
Fixpoint lookup (k : string) (fields : list (string * JValue)) : JValue :=
  match fields with
  | [] => JUndefined
  | (k', v) :: rest => if String.eqb k k' then v else lookup k rest
  end.

Section WithEngine.

(** The message of the [TypeError] raised by reading property [k] of
    [null] or [undefined]; it differs between engines. *)
Variable typeErrorMessage : string -> string.

(** [v.k], for the property names the program reads (none of which is an
    array index, [length], or a name found on a prototype). *)
Definition getProp (v : JValue) (k : string) : Result JValue :=
  match v with
  | JUndefined => Throw (typeErrorMessage k)
  | JNull => Throw (typeErrorMessage k)
  | JObj fields => Ok (lookup k fields)
  | _ => Ok JUndefined
  end.

(** [v[i]] for an index [i]. *)
Definition getIndex (v : JValue) (i : nat) : Result JValue :=
  match v with
  | JUndefined => Throw (typeErrorMessage (decimal (Z.of_nat i)))
  | JNull => Throw (typeErrorMessage (decimal (Z.of_nat i)))
  | JArr elems => Ok (nth i elems JUndefined)
  | JObj fields => Ok (lookup (decimal (Z.of_nat i)) fields)
  | JStr s =>
      match String.get i s with
      | Some c => Ok (JStr (String c EmptyString))
      | None => Ok JUndefined
      end
  | _ => Ok JUndefined
  end.

End WithEngine.

(** Reading along a path of property names without throwing:
    [undefined] as soon as a receiver is [null] or [undefined]. Used to say
    which parts of a listing item are present. *)
Fixpoint path (v : JValue) (ks : list string) : JValue :=
  match ks with
  | [] => v
  | k :: rest =>
      match v with
      | JObj fields => path (lookup k fields) rest
      | _ => JUndefined
      end
  end.

(** [v[i]] without throwing: [undefined] when [v] is [null] or
    [undefined]. *)
Definition element (v : JValue) (i : nat) : JValue :=
  match getIndex (fun _ => EmptyString) v i with
  | Ok x => x
  | Throw _ => JUndefined
  end.

End Json.

(** ** The Alpine component of [js/app.js] *)

Module App.

Import Json.

(** A [File] chosen in the file input: the properties the program reads. *)
Record File : Type := mkFile {
  name : string;
  type : string
}.

(** The [metadata] object of a photo; [None] is a property that was never
    assigned. *)
Record Metadata : Type := mkMetadata {
  format : option JValue;
  mode : option JValue;
  width : option JNumber;
  height : option JNumber
}.

Definition emptyMetadata : Metadata := mkMetadata None None None None.

Record Photo : Type := mkPhoto {
  id : JValue;
  thumbnailUrl : JValue;
  url : JValue;
  metadata : Metadata
}.

(** The reactive properties of the component. *)
Record State : Type := mkState {
  isAuthenticated : bool;
  username : string;
  authLoading : bool;
  photos : list Photo;
  loading : bool;
  error : option string;
  fileToUpload : option File;
  uploading : bool;
  uploadProgress : Z;
  uploadError : option string;
  uploadSuccess : bool;
  processingImage : bool;
  processingProgress : Z;
  processingMessage : string;
  showModal : bool;
  selectedPhoto : option Photo;
  modalLoading : bool
}.

Definition set_photos (v : list Photo) (s : State) : State :=
  mkState (isAuthenticated s) (username s) (authLoading s) v (loading s)
    (error s) (fileToUpload s) (uploading s) (uploadProgress s)
    (uploadError s) (uploadSuccess s) (processingImage s)
    (processingProgress s) (processingMessage s) (showModal s)
    (selectedPhoto s) (modalLoading s).
Definition set_loading (v : bool) (s : State) : State :=
  mkState (isAuthenticated s) (username s) (authLoading s) (photos s) v
    (error s) (fileToUpload s) (uploading s) (uploadProgress s)
    (uploadError s) (uploadSuccess s) (processingImage s)
    (processingProgress s) (processingMessage s) (showModal s)
    (selectedPhoto s) (modalLoading s).
Definition set_error (v : option string) (s : State) : State :=
  mkState (isAuthenticated s) (username s) (authLoading s) (photos s)
    (loading s) v (fileToUpload s) (uploading s) (uploadProgress s)
    (uploadError s) (uploadSuccess s) (processingImage s)
    (processingProgress s) (processingMessage s) (showModal s)
    (selectedPhoto s) (modalLoading s).
Definition set_fileToUpload (v : option File) (s : State) : State :=
  mkState (isAuthenticated s) (username s) (authLoading s) (photos s)
    (loading s) (error s) v (uploading s) (uploadProgress s) (uploadError
    s) (uploadSuccess s) (processingImage s) (processingProgress s)
    (processingMessage s) (showModal s) (selectedPhoto s) (modalLoading s).
Definition set_uploading (v : bool) (s : State) : State :=
  mkState (isAuthenticated s) (username s) (authLoading s) (photos s)
    (loading s) (error s) (fileToUpload s) v (uploadProgress s)
    (uploadError s) (uploadSuccess s) (processingImage s)
    (processingProgress s) (processingMessage s) (showModal s)
    (selectedPhoto s) (modalLoading s).
Definition set_uploadProgress (v : Z) (s : State) : State :=
  mkState (isAuthenticated s) (username s) (authLoading s) (photos s)
    (loading s) (error s) (fileToUpload s) (uploading s) v (uploadError s)
    (uploadSuccess s) (processingImage s) (processingProgress s)
    (processingMessage s) (showModal s) (selectedPhoto s) (modalLoading s).
Definition set_uploadError (v : option string) (s : State) : State :=
  mkState (isAuthenticated s) (username s) (authLoading s) (photos s)
    (loading s) (error s) (fileToUpload s) (uploading s) (uploadProgress
    s) v (uploadSuccess s) (processingImage s) (processingProgress s)
    (processingMessage s) (showModal s) (selectedPhoto s) (modalLoading s).
Definition set_uploadSuccess (v : bool) (s : State) : State :=
  mkState (isAuthenticated s) (username s) (authLoading s) (photos s)
    (loading s) (error s) (fileToUpload s) (uploading s) (uploadProgress
    s) (uploadError s) v (processingImage s) (processingProgress s)
    (processingMessage s) (showModal s) (selectedPhoto s) (modalLoading s).
Definition set_processingImage (v : bool) (s : State) : State :=
  mkState (isAuthenticated s) (username s) (authLoading s) (photos s)
    (loading s) (error s) (fileToUpload s) (uploading s) (uploadProgress
    s) (uploadError s) (uploadSuccess s) v (processingProgress s)
    (processingMessage s) (showModal s) (selectedPhoto s) (modalLoading s).
Definition set_processingProgress (v : Z) (s : State) : State :=
  mkState (isAuthenticated s) (username s) (authLoading s) (photos s)
    (loading s) (error s) (fileToUpload s) (uploading s) (uploadProgress
    s) (uploadError s) (uploadSuccess s) (processingImage s) v
    (processingMessage s) (showModal s) (selectedPhoto s) (modalLoading s).
Definition set_processingMessage (v : string) (s : State) : State :=
  mkState (isAuthenticated s) (username s) (authLoading s) (photos s)
    (loading s) (error s) (fileToUpload s) (uploading s) (uploadProgress
    s) (uploadError s) (uploadSuccess s) (processingImage s)
    (processingProgress s) v (showModal s) (selectedPhoto s) (modalLoading
    s).
Definition set_showModal (v : bool) (s : State) : State :=
  mkState (isAuthenticated s) (username s) (authLoading s) (photos s)
    (loading s) (error s) (fileToUpload s) (uploading s) (uploadProgress
    s) (uploadError s) (uploadSuccess s) (processingImage s)
    (processingProgress s) (processingMessage s) v (selectedPhoto s)
    (modalLoading s).
Definition set_selectedPhoto (v : option Photo) (s : State) : State :=
  mkState (isAuthenticated s) (username s) (authLoading s) (photos s)
    (loading s) (error s) (fileToUpload s) (uploading s) (uploadProgress
    s) (uploadError s) (uploadSuccess s) (processingImage s)
    (processingProgress s) (processingMessage s) (showModal s) v
    (modalLoading s).
Definition set_modalLoading (v : bool) (s : State) : State :=
  mkState (isAuthenticated s) (username s) (authLoading s) (photos s)
    (loading s) (error s) (fileToUpload s) (uploading s) (uploadProgress
    s) (uploadError s) (uploadSuccess s) (processingImage s)
    (processingProgress s) (processingMessage s) (showModal s)
    (selectedPhoto s) v.

Definition set_isAuthenticated (v : bool) (s : State) : State :=
  mkState v (username s) (authLoading s) (photos s) (loading s)
    (error s) (fileToUpload s) (uploading s) (uploadProgress s)
    (uploadError s) (uploadSuccess s) (processingImage s)
    (processingProgress s) (processingMessage s) (showModal s)
    (selectedPhoto s) (modalLoading s).
Definition set_username (v : string) (s : State) : State :=
  mkState (isAuthenticated s) v (authLoading s) (photos s) (loading s)
    (error s) (fileToUpload s) (uploading s) (uploadProgress s)
    (uploadError s) (uploadSuccess s) (processingImage s)
    (processingProgress s) (processingMessage s) (showModal s)
    (selectedPhoto s) (modalLoading s).
Definition set_authLoading (v : bool) (s : State) : State :=
  mkState (isAuthenticated s) (username s) v (photos s) (loading s)
    (error s) (fileToUpload s) (uploading s) (uploadProgress s)
    (uploadError s) (uploadSuccess s) (processingImage s)
    (processingProgress s) (processingMessage s) (showModal s)
    (selectedPhoto s) (modalLoading s).

(** The state a freshly created component has. *)
Definition initialState (isAuth : bool) (user : string) (authLoad : bool)
    : State :=
  mkState isAuth user authLoad [] true None None false 0 None false
          false 0 "" false None false.

(** The callbacks the component passes to [setTimeout]. *)
Inductive Callback : Type :=
| ClearModal            (* closePhotoModal, after 300 ms *)
| ProcessingDone        (* the monitor, 2000 ms after completion *)
| ResetUploadSuccess.   (* 5000 ms after [ProcessingDone] ran *)

(** A network request issued by the component. *)
Inductive Request : Type :=
| Get (endpoint : string)
| Put (endpoint : string) (contentType : string)
      (authorization : option string) (body : File).

(** The component in its environment: its reactive state, the pending
    timeouts with the time each is due, and the requests issued so far. *)
Record World : Type := mkWorld {
  app : State;
  timers : list (Z * Callback);
  requests : list Request
}.

Definition update (f : State -> State) (w : World) : World :=
  mkWorld (f (app w)) (timers w) (requests w).
Definition setTimeout (due : Z) (cb : Callback) (w : World) : World :=
  mkWorld (app w) (timers w ++ [(due, cb)]) (requests w).
Definition send (r : Request) (w : World) : World :=
  mkWorld (app w) (timers w) (requests w ++ [r]).
Definition set_timers (ts : list (Z * Callback)) (w : World) : World :=
  mkWorld (app w) ts (requests w).

(** What [await response.json()] gives. *)
Inductive Body : Type :=
| JsonRejected (message : string)
| Json (data : JValue).

(** What [await fetch(endpoint)] gives. *)
Inductive FetchOutcome : Type :=
| FetchRejected (message : string)
| Response (ok : bool) (body : Body).


(** A [progress] event of the upload: [Percent p] when the length is
    computable, with [p] the value of
    [Math.round((event.loaded / event.total) * 100)]. *)
Inductive ProgressEvent : Type :=
| Indeterminate
| Percent (p : Z).

(** How the XHR of an upload ends. *)
Inductive XhrOutcome : Type :=
| XhrLoad (progress : list ProgressEvent) (status : Z) (statusText : string)
| XhrError (progress : list ProgressEvent).

(** The variables captured by the interval callback of
    [startImageProcessingMonitor]; [running] is false once [clearInterval]
    was called. *)
Record Monitor : Type := mkMonitor {
  initialPhotoCount : nat;
  elapsed : Z;
  running : bool
}.

Definition totalExpectedTime : Z := 60.

(** [Math.round((elapsed / total) * 100)], rounding half up; on the
    multiples of ten the monitor passes the rational and the floating-point
    values round alike. *)
Definition roundPercent (elapsed total : Z) : Z :=
  (2 * (elapsed * 100) + total) / (2 * total).

Section WithEnvironment.

Variable typeErrorMessage : string -> string.
(** [parseInt(v, 10)]. *)
Variable parseInt10 : JValue -> JNumber.
(** [window.AppConfig.api]. *)
Variable photos_endpoint : string.
Variable upload_endpoint : string.

Local Abbreviation getProp := (Json.getProp typeErrorMessage).
Local Abbreviation getIndex := (Json.getIndex typeErrorMessage).

(** [item.k ? item.k.S : ''] *)
Definition wrappedString (item : JValue) (k : string) : Result JValue :=
  field <- getProp item k ;;
  if truthy field then getProp field "S" else Ok (JStr "").

(** [m.k && m.k.S], and the value assigned when it holds. *)
Definition optionalString (m : JValue) (k : string)
    : Result (option JValue) :=
  field <- getProp m k ;;
  if truthy field then
    s <- getProp field "S" ;;
    Ok (if truthy s then Some s else None)
  else Ok None.

(** [m.Size && m.Size.L && m.Size.L[0] && m.Size.L[1]], and the two values
    assigned when it holds. *)
Definition optionalSize (m : JValue)
    : Result (option JNumber * option JNumber) :=
  size <- getProp m "Size" ;;
  if truthy size then
    l <- getProp size "L" ;;
    if truthy l then
      l0 <- getIndex l 0 ;;
      if truthy l0 then
        l1 <- getIndex l 1 ;;
        if truthy l1 then
          n0 <- getProp l0 "N" ;;
          n1 <- getProp l1 "N" ;;
          Ok (Some (parseInt10 n0), Some (parseInt10 n1))
        else Ok (None, None)
      else Ok (None, None)
    else Ok (None, None)
  else Ok (None, None).

Definition metadataOfItem (item : JValue) : Result Metadata :=
  md <- getProp item "Metadata" ;;
  if truthy md then
    m <- getProp md "M" ;;
    if truthy m then
      fmt <- optionalString m "Format" ;;
      mo <- optionalString m "Mode" ;;
      size <- optionalSize m ;;
      Ok (mkMetadata fmt mo (fst size) (snd size))
    else Ok emptyMetadata
  else Ok emptyMetadata.

(** The callback of [data.Items.map]. *)
Definition photoOfItem (item : JValue) : Result Photo :=
  thumbnailURL <- wrappedString item "ThumbnailURL" ;;
  originalURL <- wrappedString item "OriginalImageURL" ;;
  photoId <- wrappedString item "ImageMetadataPK" ;;
  md <- metadataOfItem item ;;
  Ok (mkPhoto photoId thumbnailURL originalURL md).

(** The [try] block of [fetchPhotos] after the request was sent: the new
    state, or the exception thrown. *)
Definition fetchPhotosTry (r : FetchOutcome) (s : State) : Result State :=
  match r with
  | FetchRejected message => Throw message
  | Response false _ => Throw "Network response was not ok"
  | Response true (JsonRejected message) => Throw message
  | Response true (Json data) =>
      (* data && data.Items && Array.isArray(data.Items) *)
      items <- (if truthy data then getProp data "Items"
                else Ok JUndefined) ;;
      match items with
      | JArr elems =>
          ps <- mapR photoOfItem elems ;;
          Ok (set_photos ps s)
      | _ =>
          Ok (set_photos []
                (set_error (Some "Unexpected API response format") s))
      end
  end.

(** [fetchPhotos()], with the outcome [r] of its request. *)
Definition fetchPhotos (r : FetchOutcome) (w : World) : World :=
  let w := update (set_error None) (update (set_loading true) w) in
  let w := send (Get photos_endpoint) w in
  let w :=
    match fetchPhotosTry r (app w) with
    | Ok s => update (fun _ => s) w
    | Throw message =>
        update (set_error (Some ("Failed to fetch photos: " ++ message))) w
    end in
  update (set_loading false) w.

(** [handleFileSelect(event)], with [event.target.files[0]]. *)
Definition handleFileSelect (file0 : option File) (w : World) : World :=
  update (set_uploadSuccess false)
    (update (set_uploadError None)
       (update (set_fileToUpload file0) w)).

(** [getPresignedUrl(file)] with [Date.now()] = [now]. *)
Definition getPresignedUrl (now : Z) (file : File) : string :=
  let fileName := decimal now ++ "-" ++ name file in
  upload_endpoint ++ fileName.

Definition applyProgress (w : World) (e : ProgressEvent) : World :=
  match e with
  | Percent p => update (set_uploadProgress p) w
  | Indeterminate => w
  end.

Definition isSuccessStatus (status : Z) : bool :=
  (200 <=? status) && (status <? 300).

(** [uploadToS3(presignedUrl, file)]: the request, then how the promise
    settles. [authToken] is [window.authStatus.token]. *)
Definition uploadToS3 (presignedUrl : string) (file : File)
    (authToken : option string) (x : XhrOutcome) (w : World)
    : Result unit * World :=
  let contentType :=
    if truthyString (type file) then type file
    else "application/octet-stream" in
  let authorization :=
    match authToken with
    | Some t => if truthyString t then Some ("Bearer " ++ t) else None
    | None => None
    end in
  let w := send (Put presignedUrl contentType authorization file) w in
  match x with
  | XhrLoad progress status statusText =>
      let w := fold_left applyProgress progress w in
      if isSuccessStatus status then (Ok tt, w)
      else (Throw ("Upload failed with status: " ++ decimal status
                   ++ " - " ++ statusText), w)
  | XhrError progress =>
      let w := fold_left applyProgress progress w in
      (Throw "A network error occurred during the upload.", w)
  end.

(** [startImageProcessingMonitor()]: the state it sets and the closure of
    the interval it registers (every 10000 ms). *)
Definition startImageProcessingMonitor (w : World) : World * Monitor :=
  let w := update (set_processingImage true) w in
  let w := update (set_processingProgress 0) w in
  let w := update (set_processingMessage
    "Processing image... This typically takes about 60 seconds") w in
  (w, mkMonitor (length (photos (app w))) 0 true).

(** [uploadFile()] at time [now], with the outcome [x] of the transfer. *)
Definition uploadFile (now : Z) (authToken : option string) (x : XhrOutcome)
    (w : World) : World * option Monitor :=
  match fileToUpload (app w) with
  | None =>
      (update (set_uploadError (Some "Please select a file to upload.")) w,
       None)
  | Some file =>
      let w := update (set_uploading true) w in
      let w := update (set_uploadProgress 0) w in
      let w := update (set_uploadError None) w in
      let w := update (set_uploadSuccess false) w in
      let presignedUrl := getPresignedUrl now file in
      match uploadToS3 presignedUrl file authToken x w with
      | (Ok _, w) =>
          let w := update (set_uploadSuccess true) w in
          let w := update (set_fileToUpload None) w in
          let (w, m) := startImageProcessingMonitor w in
          (update (set_uploading false) w, Some m)
      | (Throw message, w) =>
          let w := update (set_uploadError
                             (Some ("Upload failed: " ++ message))) w in
          (update (set_uploading false) w, None)
      end
  end.

(** One run of the interval callback at time [now], with the outcome [r] of
    the listing request it makes. Nothing runs once the interval is
    cleared. *)
Definition monitorTick (now : Z) (r : FetchOutcome) (mw : Monitor * World)
    : Monitor * World :=
  let (m, w) := mw in
  if running m then
    let elapsed' := elapsed m + 10 in
    let w := update (set_processingProgress
               (Z.min (roundPercent elapsed' totalExpectedTime) 95)) w in
    let w := fetchPhotos r w in
    if (initialPhotoCount m <? length (photos (app w)))%nat
       || (totalExpectedTime + 10 <=? elapsed')
    then
      let w := update (set_processingProgress 100) w in
      let w := update (set_processingMessage "Image processing complete!") w in
      let w := setTimeout (now + 2000) ProcessingDone w in
      (mkMonitor (initialPhotoCount m) elapsed' false, w)
    else (mkMonitor (initialPhotoCount m) elapsed' true, w)
  else (m, w).

(** The ticks of a monitor, one per outcome, 10000 ms apart from [start]. *)
Fixpoint monitorRun (start : Z) (rs : list FetchOutcome)
    (mw : Monitor * World) : Monitor * World :=
  match rs with
  | [] => mw
  | r :: rest =>
      monitorRun (start + 10000) rest (monitorTick (start + 10000) r mw)
  end.

(** [openPhotoModal(photo)]; the image it starts loading settles later. *)
Definition openPhotoModal (photo : Photo) (w : World) : World :=
  update (set_showModal true)
    (update (set_modalLoading true)
       (update (set_selectedPhoto (Some photo)) w)).

(** [img.onload] and [img.onerror] alike. *)
Definition imageSettled (w : World) : World :=
  update (set_modalLoading false) w.

(** [closePhotoModal()] at time [now]. *)
Definition closePhotoModal (now : Z) (w : World) : World :=
  setTimeout (now + 300) ClearModal (update (set_showModal false) w).

(** Running a timeout callback at time [now]. *)
Definition runCallback (now : Z) (cb : Callback) (w : World) : World :=
  match cb with
  | ClearModal =>
      update (set_modalLoading false) (update (set_selectedPhoto None) w)
  | ProcessingDone =>
      setTimeout (now + 5000) ResetUploadSuccess
        (update (set_processingImage false) w)
  | ResetUploadSuccess => update (set_uploadSuccess false) w
  end.

(** The three assignments that copy [window.authStatus] into the
    component. *)
Definition mirrorAuth (status : Auth.AuthStatus) (w : World) : World :=
  update (set_authLoading (Auth.loading status))
    (update (set_username (Auth.username status))
       (update (set_isAuthenticated (Auth.isAuthenticated status)) w)).

(** The listener of [auth:statusChanged] registered by [init], called
    while [window.authStatus] is [status]; [r] is the outcome of the
    listing request it makes when the session is authenticated. *)
Definition onAuthStatusChanged (status : Auth.AuthStatus) (r : FetchOutcome)
    (w : World) : World :=
  let w := mirrorAuth status w in
  if isAuthenticated (app w) then fetchPhotos r w
  else if negb (authLoading (app w)) then update (set_photos []) w
  else w.

(** The end of [init()], after the listeners are registered. *)
Definition init (status : Auth.AuthStatus) (r : FetchOutcome) (w : World)
    : World :=
  let w := mirrorAuth status w in
  if isAuthenticated (app w) then fetchPhotos r w else w.

(** The listener called once for each notification of a sequence, each
    with the outcome of the request it may make. *)
Definition deliver (events : list (Auth.AuthStatus * FetchOutcome))
    (w : World) : World :=
  fold_left (fun w e => onAuthStatusChanged (fst e) (snd e) w) events w.

End WithEnvironment.

(** Which optional parts of a listing item are absent: the value the code
    tests is falsy. *)
Definition formatAbsent (item : JValue) : Prop :=
  truthy (path item ["Metadata"; "M"; "Format"; "S"]) = false.
Definition modeAbsent (item : JValue) : Prop :=
  truthy (path item ["Metadata"; "M"; "Mode"; "S"]) = false.
Definition sizeAbsent (item : JValue) : Prop :=
  truthy (element (path item ["Metadata"; "M"; "Size"; "L"]) 0) = false
  \/ truthy (element (path item ["Metadata"; "M"; "Size"; "L"]) 1) = false.

(** The progress events of a transfer, and whether the transfer ended
    with a status from 200 to 299. *)
Definition progressOf (x : XhrOutcome) : list ProgressEvent :=
  match x with
  | XhrLoad progress _ _ => progress
  | XhrError progress => progress
  end.

Definition transferred (x : XhrOutcome) : bool :=
  match x with
  | XhrLoad _ status _ => (200 <=? status) && (status <? 300)
  | XhrError _ => false
  end.

(** The progress shown after a sequence of progress events. *)
Definition lastPercent (progress : list ProgressEvent) (p0 : Z) : Z :=
  fold_left (fun p e => match e with Percent q => q | Indeterminate => p end)
            progress p0.

(** *** The timer queue *)

(** The pending timeout that runs next: the one due first, the one set
    first among those due together; and the timeouts left. *)
Fixpoint nextTimer (ts : list (Z * Callback))
    : option ((Z * Callback) * list (Z * Callback)) :=
  match ts with
  | [] => None
  | t :: rest =>
      match nextTimer rest with
      | None => Some (t, [])
      | Some (t', rest') =>
          if fst t <=? fst t' then Some (t, rest)
          else Some (t', t :: rest')
      end
  end.

(** How many callbacks a pending timeout can lead to. *)
Definition weight (t : Z * Callback) : nat :=
  match snd t with
  | ProcessingDone => 2
  | _ => 1
  end.

Definition totalWeight (ts : list (Z * Callback)) : nat :=
  list_sum (map weight ts).

(** Run, in order, the timeouts due at or before [t], each at the time it
    is due. *)
Fixpoint runTimers (fuel : nat) (t : Z) (w : World) : World :=
  match fuel with
  | O => w
  | S fuel' =>
      match nextTimer (timers w) with
      | Some ((due, cb), rest) =>
          if due <=? t
          then runTimers fuel' t (runCallback due cb (set_timers rest w))
          else w
      | None => w
      end
  end.

(** Let time pass until [t]. *)
Definition advanceTo (t : Z) (w : World) : World :=
  runTimers (totalWeight (timers w)) t w.

End App.

(** ** The environment loader ([js/env-loader.js]) *)

Module EnvLoader.

(** Strings are sequences of code units below 256. *)
Definition code (c : ascii) : nat := nat_of_ascii c.

Definition inRange (lo hi : nat) (c : ascii) : bool :=
  (lo <=? code c)%nat && (code c <=? hi)%nat.

(** The class [\s], as far as code units below 256 go: tab, line feed,
    vertical tab, form feed, carriage return, space, no-break space. *)
Definition isWhitespace (c : ascii) : bool :=
  inRange 9 13 c || (code c =? 32)%nat || (code c =? 160)%nat.

(** The class [\w]. *)
Definition isWordChar (c : ascii) : bool :=
  inRange 48 57 c || inRange 65 90 c || inRange 97 122 c
  || (code c =? 95)%nat.

(** The class [[\w.-]]. *)
Definition isKeyChar (c : ascii) : bool :=
  isWordChar c || (code c =? 46)%nat || (code c =? 45)%nat.

(** What [.] matches: anything but a line terminator. *)
Definition isDot (c : ascii) : bool :=
  negb ((code c =? 10)%nat || (code c =? 13)%nat).

(** The regular expressions the loader needs: a character, a greedy
    repetition of a character class, a sequence, a capture group, an
    optional part. *)
Inductive Regex : Type :=
| Chr (c : ascii)
| StarOf (p : ascii -> bool)
| PlusOf (p : ascii -> bool)
| Cat (r1 r2 : Regex)
| Group (n : nat) (r : Regex)
| Opt (r : Regex).

Definition Captures : Type := list (nat * string).

Fixpoint capture (n : nat) (caps : Captures) : option string :=
  match caps with
  | [] => None
  | (m, s) :: rest => if (n =? m)%nat then Some s else capture n rest
  end.

(** The part of [s] consumed when [rest] is what is left of it. *)
Definition consumed (s rest : string) : string :=
  substring 0 (String.length s - String.length rest) s.

(** A greedy repetition with backtracking: the longest run first, then
    shorter ones, until the continuation [k] accepts. *)
Fixpoint starK {R : Type} (p : ascii -> bool) (s : string)
    (k : string -> option R) : option R :=
  match s with
  | String c s' =>
      if p c then
        match starK p s' k with
        | Some r => Some r
        | None => k s
        end
      else k s
  | EmptyString => k s
  end.

(** The backtracking matcher, with the continuation [k] for what follows.
    An optional part that matches the empty string is not taken: the match
    goes on as if the part were absent. *)
Fixpoint run (r : Regex) (s : string) (caps : Captures)
    (k : string -> Captures -> option Captures) : option Captures :=
  match r with
  | Chr c =>
      match s with
      | String c' s' => if Ascii.eqb c c' then k s' caps else None
      | EmptyString => None
      end
  | StarOf p => starK p s (fun rest => k rest caps)
  | PlusOf p =>
      match s with
      | String c s' =>
          if p c then starK p s' (fun rest => k rest caps) else None
      | EmptyString => None
      end
  | Cat r1 r2 => run r1 s caps (fun rest caps' => run r2 rest caps' k)
  | Group n r =>
      run r s caps (fun rest caps' => k rest ((n, consumed s rest) :: caps'))
  | Opt r =>
      match run r s caps
              (fun rest caps' =>
                 if (String.length rest =? String.length s)%nat then None
                 else k rest caps') with
      | Some result => Some result
      | None => k s caps
      end
  end.

(** [s.match(/^r$/)]: the captures, or [None] for [null]. *)
Definition matchWhole (r : Regex) (s : string) : option Captures :=
  run r s []
      (fun rest caps =>
         match rest with
         | EmptyString => Some caps
         | _ => None
         end).

(** The expression of [parseEnv], piece by piece: start of line, white
    space, group 1 of one or more key characters, white space, an equals
    sign, white space, optionally group 2 of any characters but line
    terminators, white space, end of line. *)
Definition envLine : Regex :=
  Cat (StarOf isWhitespace)
    (Cat (Group 1 (PlusOf isKeyChar))
       (Cat (StarOf isWhitespace)
          (Cat (Chr "=")
             (Cat (StarOf isWhitespace)
                (Cat (Opt (Group 2 (StarOf isDot)))
                     (StarOf isWhitespace)))))).

Definition startsWith (prefix s : string) : bool := String.prefix prefix s.

Definition endsWith (suffix s : string) : bool :=
  (String.length suffix <=? String.length s)%nat
  && String.eqb
       (substring (String.length s - String.length suffix)
                  (String.length suffix) s)
       suffix.

(** [s.substring(from, to)]: both ends clamped to the string, and swapped
    when [from] is the larger. *)
Definition jsSubstring (from to : Z) (s : string) : string :=
  let len := Z.of_nat (String.length s) in
  let clamp := fun i => Z.max 0 (Z.min i len) in
  let lo := Z.min (clamp from) (clamp to) in
  let hi := Z.max (clamp from) (clamp to) in
  substring (Z.to_nat lo) (Z.to_nat (hi - lo)) s.

(** The one-character strings of a double and of a single quote. *)
Definition doubleQuote : string := String (ascii_of_nat 34) EmptyString.
Definition singleQuote : string := String (ascii_of_nat 39) EmptyString.

(** The clean-up of quotes. *)
Definition stripQuotes (value : string) : string :=
  if startsWith doubleQuote value && endsWith doubleQuote value
  then jsSubstring 1 (Z.of_nat (String.length value) - 1) value
  else if startsWith singleQuote value && endsWith singleQuote value
  then jsSubstring 1 (Z.of_nat (String.length value) - 1) value
  else value.

(** The object [env]: its own properties, in the order they were added. *)
Definition Env : Type := list (string * string).

Fixpoint getProperty (key : string) (env : Env) : option string :=
  match env with
  | [] => None
  | (k, v) :: rest => if String.eqb key k then Some v else getProperty key rest
  end.

Fixpoint replaceProperty (key value : string) (env : Env) : Env :=
  match env with
  | [] => [(key, value)]
  | (k, v) :: rest =>
      if String.eqb key k then (k, value) :: rest
      else (k, v) :: replaceProperty key value rest
  end.

(** [env[key] = value]. Assigning a string to [__proto__] does nothing. *)
Definition setProperty (key value : string) (env : Env) : Env :=
  if String.eqb key "__proto__" then env
  else replaceProperty key value env.

(** One turn of the loop of [parseEnv]. *)
Definition parseLine (env : Env) (line : string) : Env :=
  if negb (truthyString line) || startsWith "#" line then env
  else
    match matchWhole envLine line with
    | Some caps =>
        match capture 1 caps with
        | Some key =>
            let value :=
              match capture 2 caps with
              | Some v => if truthyString v then v else ""
              | None => ""
              end in
            setProperty key (stripQuotes value) env
        | None => env
        end
    | None => env
    end.

Definition lineFeed : ascii := ascii_of_nat 10.

Definition parseEnv (content : string) : Env :=
  fold_left parseLine (split lineFeed content) [].

(** Every character of [s] is in the class [p]. *)
Fixpoint allChars (p : ascii -> bool) (s : string) : bool :=
  match s with
  | EmptyString => true
  | String c rest => p c && allChars p rest
  end.

(** [s] does not begin with a character of the class [p]. *)
Definition headOutside (p : ascii -> bool) (s : string) : bool :=
  match s with
  | EmptyString => true
  | String c _ => negb (p c)
  end.

Definition isEquals (c : ascii) : bool := Ascii.eqb c "=".
Definition isLineFeed (c : ascii) : bool := Ascii.eqb c lineFeed.

Definition notEquals (c : ascii) : bool := negb (isEquals c).
Definition notLineFeed (c : ascii) : bool := negb (isLineFeed c).

(** [lines.join('\n')], for a non-empty list of lines. *)
Fixpoint joinLines (lines : list string) : string :=
  match lines with
  | [] => EmptyString
  | [l] => l
  | l :: rest => l ++ String lineFeed (joinLines rest)
  end.

(** A line the loop of [parseEnv] skips before matching. *)
Definition isSkipped (line : string) : bool :=
  negb (truthyString line) || startsWith "#" line.



End EnvLoader.

(** ** The configuration ([config.js]) *)

Module Config.

Import EnvLoader.

(** [obj && obj[key]] for an object that may be missing. *)
Definition lookupIn (obj : option Env) (key : string) : option string :=
  match obj with
  | Some env => getProperty key env
  | None => None
  end.

(** [getEnv(key, defaultValue)], for keys that name no property of
    [Object.prototype]. [processEnv] is [process.env], [None] when there is
    no [process]; [windowEnv] is [window._env]. *)
Definition getEnv (processEnv windowEnv : option Env) (key : string)
    (defaultValue : string) : string :=
  match lookupIn processEnv key with
  | Some v =>
      if truthyString v then v
      else match lookupIn windowEnv key with
           | Some v' => if truthyString v' then v' else defaultValue
           | None => defaultValue
           end
  | None =>
      match lookupIn windowEnv key with
      | Some v' => if truthyString v' then v' else defaultValue
      | None => defaultValue
      end
  end.





End Config.

(** ** Concrete inputs used in the examples *)

Module Sample.

Import Auth.

(** A decoder for which every payload fails to decode. *)
Definition noDecoder (part : string) : Result Auth.Payload :=
  Throw "invalid payload".


(** A stored session as the program writes it, expiring at time 3601000. *)
Definition savedSession : AuthStatus :=
  mkAuthStatus true "Authenticated User" (Some "id-abc")
               (ExpiresAt 3601000) false.

(** A first visit, and the return from the identity provider. *)
Definition windowWith (item : option StoredItem) : Window :=
  mkWindow emptyAuthStatus item None [].
Definition windowWithCode : Window := freshWindow (Some "abc123").

(** An engine: the message of its [TypeError], and a [parseInt] that
    reads the leading decimal digits of a string. *)
Definition typeErrorMessage (k : string) : string :=
  "Cannot read properties of null (reading '" ++ k ++ "')".

Fixpoint leadingDigits (s : string) (acc : option Z) : option Z :=
  match s with
  | String c rest =>
      let d := Z.of_nat (nat_of_ascii c) - 48 in
      if (0 <=? d) && (d <=? 9)
      then leadingDigits rest
             (Some (10 * match acc with Some a => a | None => 0 end + d))
      else acc
  | EmptyString => acc
  end.

Definition parseInt10 (v : Json.JValue) : Json.JNumber :=
  match v with
  | Json.JStr s =>
      match leadingDigits s None with
      | Some n => Json.Num n
      | None => Json.NaN
      end
  | Json.JNum n => Json.Num n
  | _ => Json.NaN
  end.

Definition photosEndpoint : string := "https://api.example/photos/".
Definition uploadEndpoint : string := "https://api.example/bucket/".

Definition fetchPhotos :=
  App.fetchPhotos typeErrorMessage parseInt10 photosEndpoint.
Definition uploadFile := App.uploadFile uploadEndpoint.
Definition monitorTick :=
  App.monitorTick typeErrorMessage parseInt10 photosEndpoint.
Definition monitorRun :=
  App.monitorRun typeErrorMessage parseInt10 photosEndpoint.

(** A photo, a file, and a component that shows the photo. *)
Definition photo1 : App.Photo :=
  App.mkPhoto (Json.JStr "p1") (Json.JStr "https://thumbs/p1.jpg")
              (Json.JStr "https://images/p1.jpg") App.emptyMetadata.

Definition file1 : App.File := App.mkFile "cat.png" "image/png".

Definition worldOf (s : App.State) : App.World := App.mkWorld s [] [].

Definition showingOnePhoto : App.World :=
  worldOf (App.set_loading false
             (App.set_photos [photo1]
                (App.initialState true "Authenticated User" false))).

(** A listing item without [Format], [Mode] and [Size], one with all of
    them, and a listing of both. *)
Definition str (s : string) : Json.JValue := Json.JObj [("S", Json.JStr s)].

Definition bareItem : Json.JValue :=
  Json.JObj [("ThumbnailURL", str "https://thumbs/p2.jpg");
             ("OriginalImageURL", str "https://images/p2.jpg");
             ("ImageMetadataPK", str "p2");
             ("Metadata", Json.JObj [("M", Json.JObj [])])].

Definition fullItem : Json.JValue :=
  Json.JObj [("ThumbnailURL", str "https://thumbs/p3.jpg");
             ("OriginalImageURL", str "https://images/p3.jpg");
             ("ImageMetadataPK", str "p3");
             ("Metadata",
              Json.JObj [("M",
                Json.JObj [("Format", str "JPEG");
                           ("Mode", str "RGB");
                           ("Size",
                            Json.JObj [("L",
                              Json.JArr
                                [Json.JObj [("N", Json.JStr "800")];
                                 Json.JObj [("N", Json.JStr "600")]])])])])].

Definition listing (items : list Json.JValue) : Json.JValue :=
  Json.JObj [("Items", Json.JArr items)].


(** The window after the exchange of the code at time 1000. *)
Definition signedIn : Auth.Window :=
  Auth.runOp noDecoder 1000 Auth.OpCheckAuth windowWithCode.

(** The lines of a [.env] file. *)
Definition envLines : list string :=
  ["# settings"; ""; "COGNITO_REGION=us-east-2"].

(** The component with a file selected, and with the modal open. *)
Definition withFile : App.World :=
  App.handleFileSelect (Some file1) showingOnePhoto.

Definition withModal : App.World :=
  App.openPhotoModal photo1 showingOnePhoto.

(** A monitor that has ticked six times, on one photo. *)
Definition lateMonitor : App.Monitor := App.mkMonitor 1 60 true.

End Sample.

(** * Properties of the session store *)

Section AuthProperties.

Import Auth.

Variable decodePayload : string -> Result Payload.

Local Abbreviation checkAuth := (checkAuthFromHash decodePayload).

Lemma truthyString_spec (s : string) : truthyString s = true <-> s <> "".
Proof.
  unfold truthyString. destruct (String.eqb_spec s ""); simpl; split;
    congruence.
Qed.

Lemma jsOr_undefined (b : option string) : jsOr None b = b.
Proof. reflexivity. Qed.

Lemma usernameOf_saved (saved : AuthStatus) :
  usernameOf decodePayload (tokenDataOfSaved saved)
  = if truthyString (username saved) then username saved else "User".
Proof. reflexivity. Qed.

Lemma restoreSession_check (now : Z) (w : Window) :
  hasCode w = false ->
  checkAuth now w
  = dispatchEvent
      (let w' := restoreSession decodePayload now
                   (set_authStatus (set_loading true (authStatus w)) w) in
       set_authStatus (set_loading false (authStatus w')) w').
Proof.
  unfold checkAuthFromHash, exchangeOrRestore, hasCode. intros H.
  destruct w as [a st [c|] d]; simpl in *; [rewrite H|]; reflexivity.
Qed.

(** Restoring an unexpired stored session. *)
Lemma restore_unexpired (now e : Z) (w : Window) (saved : AuthStatus) :
  hasCode w = false ->
  localStorage w = Some (SessionText saved) ->
  tokenExpiry saved = ExpiresAt e -> now < e ->
  authStatus (checkAuth now w)
  = mkAuthStatus true
      (if truthyString (username saved) then username saved else "User")
      (token saved) (ExpiresAt (now + secondsToMs 3600)) false
  /\ localStorage (checkAuth now w)
     = Some (SessionText (authStatus (checkAuth now w))).
Proof.
  intros Hc Hs He Hlt. rewrite (restoreSession_check now w Hc).
  destruct w as [a st c d]; simpl in *. subst st.
  unfold restoreSession; simpl. rewrite He; simpl.
  apply Z.ltb_lt in Hlt. rewrite Hlt. split; reflexivity.
Qed.



(** C10. Restoring an unexpired stored session does not keep its expiry:
    the restored session, and the copy stored again, expire 3600 seconds
    after the time of the restore, whatever the stored expiry was. *)
Theorem restore_recomputes_expiry (now e : Z) (w : Window)
    (saved : AuthStatus) :
  hasCode w = false ->
  localStorage w = Some (SessionText saved) ->
  tokenExpiry saved = ExpiresAt e -> now < e ->
  expiresInOf (tokenDataOfSaved saved) = 3600
  /\ tokenExpiry (authStatus (checkAuth now w))
     = ExpiresAt (now + secondsToMs 3600)
  /\ localStorage (checkAuth now w)
     = Some (SessionText (authStatus (checkAuth now w)))
  /\ (e <> now + secondsToMs 3600 ->
      tokenExpiry (authStatus (checkAuth now w)) <> tokenExpiry saved).
Proof.
  intros Hc Hs He Hlt.
  destruct (restore_unexpired now e w saved Hc Hs He Hlt) as [Ha Hl].
  split; [reflexivity|]. split; [now rewrite Ha|]. split; [exact Hl|].
  intros Hne. rewrite Ha, He. cbn [tokenExpiry]. intros Heq.
  injection Heq as Heq. apply Hne. symmetry. exact Heq.
Qed.



(** *** The invariant of the session *)

Lemma setBefore_mono (t now : Z) (a : AuthStatus) :
  t <= now -> setBefore t a -> setBefore now a.
Proof.
  intros Hle (tok & setAt & Ht & Hne & Hs & He).
  exists tok, setAt. repeat split; auto. lia.
Qed.

Lemma sessionInvariant_mono (t now : Z) (w : Window) :
  t <= now -> sessionInvariant t w -> sessionInvariant now w.
Proof.
  intros Hle [Ha Hs]. split.
  - intros H. eapply setBefore_mono; eauto.
  - intros saved H. eapply setBefore_mono; eauto.
Qed.

(** Changing the loading flag changes nothing the invariant reads. *)
Lemma sessionInvariant_loading (now : Z) (b : bool) (w : Window) :
  sessionInvariant now w ->
  sessionInvariant now (set_authStatus (set_loading b (authStatus w)) w).
Proof. intros [Ha Hs]. split; simpl; auto. Qed.

Lemma sessionInvariant_dispatch (now : Z) (w : Window) :
  sessionInvariant now w -> sessionInvariant now (dispatchEvent w).
Proof. intros [Ha Hs]. split; simpl; auto. Qed.

Lemma sessionInvariant_clear (now : Z) (w : Window) :
  sessionInvariant now (clearAuthData w).
Proof. split; simpl; [discriminate | intros saved H; discriminate]. Qed.

(** [setAuthenticatedUser] establishes the invariant when the token it is
    given is not empty and no expiry other than the default is asked for. *)
Lemma sessionInvariant_set (now : Z) (tokenData : TokenData) (w : Window)
    (tok : string) :
  jsOr (jsOr (td_id_token tokenData) (td_access_token tokenData))
       (td_token tokenData) = Some tok ->
  tok <> "" ->
  expiresInOf tokenData = 3600 ->
  sessionInvariant now (setAuthenticatedUser decodePayload now tokenData w).
Proof.
  intros Ht Hne He.
  assert (Hb : setBefore now
            (mkAuthStatus true (usernameOf decodePayload tokenData)
               (Some tok) (ExpiresAt (now + secondsToMs 3600)) false)).
  { exists tok, now. simpl. repeat split; auto. lia. }
  unfold setAuthenticatedUser. rewrite Ht, He.
  split; simpl.
  - intros _. exact Hb.
  - intros saved H. injection H as <-. exact Hb.
Qed.

Lemma sessionInvariant_restore (now : Z) (w : Window) :
  sessionInvariant now w ->
  sessionInvariant now (restoreSession decodePayload now w).
Proof.
  intros Hinv. unfold restoreSession.
  destruct (localStorage w) as [[| |saved]|] eqn:Hs; auto.
  - apply sessionInvariant_clear.
  - destruct (notExpired now (tokenExpiry saved)).
    + destruct Hinv as [_ Hst].
      destruct (Hst saved Hs) as (tok & setAt & Ht & Hne & _).
      apply (sessionInvariant_set now _ w tok); auto.
    + apply sessionInvariant_clear.
Qed.

Lemma sessionInvariant_checkAuth (now : Z) (w : Window) :
  sessionInvariant now w -> sessionInvariant now (checkAuth now w).
Proof.
  intros Hinv. unfold checkAuthFromHash, exchangeOrRestore.
  apply sessionInvariant_dispatch, sessionInvariant_loading.
  apply (sessionInvariant_loading now true) in Hinv.
  cbn [urlCode set_authStatus].
  destruct (urlCode w) as [authCode|].
  - destruct (truthyString authCode).
    + assert (H : sessionInvariant now
                (setAuthenticatedUser decodePayload now
                   (authDataOfCode authCode)
                   (set_authStatus (set_loading true (authStatus w)) w))).
      { apply (sessionInvariant_set now _ _ ("id-" ++ authCode));
          [reflexivity | discriminate | reflexivity]. }
      destruct H as [Ha Hs]. split; simpl; auto.
    + apply sessionInvariant_restore. exact Hinv.
  - apply sessionInvariant_restore. exact Hinv.
Qed.

Lemma sessionInvariant_runOp (now : Z) (op : Op) (w : Window) :
  sessionInvariant now w -> sessionInvariant now (runOp decodePayload now op w).
Proof.
  intros Hinv. destruct op; simpl.
  - destruct Hinv as [_ Hs]. split; simpl; [discriminate | exact Hs].
  - apply sessionInvariant_checkAuth. exact Hinv.
  - apply sessionInvariant_clear.
  - unfold expiryCheck.
    destruct (tokenExpiry (authStatus w)) as [| |expiryTime]; auto.
    destruct (expiryTime <=? now); auto. apply sessionInvariant_clear.
  - apply sessionInvariant_dispatch, sessionInvariant_loading. exact Hinv.
  - apply sessionInvariant_dispatch, sessionInvariant_loading. exact Hinv.
  - unfold loadListener. destruct (urlCode w) as [c|]; auto.
    destruct (truthyString c); [apply sessionInvariant_loading|];
      exact Hinv.
Qed.

Lemma reachable_sessionInvariant (now : Z) (w : Window) :
  reachable decodePayload now w -> sessionInvariant now w.
Proof.
  induction 1 as [now code | t now op w Hr IH Hle].
  - split; simpl; [discriminate | intros saved H; discriminate].
  - apply sessionInvariant_runOp.
    apply (sessionInvariant_mono t now); assumption.
Qed.

(** What a single operation does to the session: if the session is
    authenticated afterwards, either it is the session that was there
    before, or its expiry was set by this operation, to one hour after the
    time at which the operation runs. *)
Lemma runOp_keeps_or_sets (now : Z) (op : Op) (w : Window) :
  isAuthenticated (authStatus (runOp decodePayload now op w)) = true ->
  (isAuthenticated (authStatus w) = true
   /\ token (authStatus (runOp decodePayload now op w)) = token (authStatus w)
   /\ tokenExpiry (authStatus (runOp decodePayload now op w))
      = tokenExpiry (authStatus w))
  \/ (exists expiry,
        tokenExpiry (authStatus (runOp decodePayload now op w))
        = ExpiresAt expiry
        /\ expiry = now + secondsToMs 3600
        /\ now < expiry).
Proof.
  assert (Hfuture : now < now + secondsToMs 3600)
    by (unfold secondsToMs; lia).
  destruct w as [a st c d].
  destruct op; simpl; try discriminate; try solve [intros H; left; auto].
  - unfold checkAuthFromHash, exchangeOrRestore, restoreSession. simpl.
    destruct c as [code|]; simpl.
    + destruct (truthyString code); simpl.
      * intros _. right. eexists. repeat split. exact Hfuture.
      * destruct st as [[| |saved]|]; simpl;
          try destruct (notExpired now (tokenExpiry saved)); simpl;
          try discriminate; try solve [intros H; left; auto].
        intros _. right. eexists. repeat split. exact Hfuture.
    + destruct st as [[| |saved]|]; simpl;
        try destruct (notExpired now (tokenExpiry saved)); simpl;
        try discriminate; try solve [intros H; left; auto].
      intros _. right. eexists. repeat split. exact Hfuture.
  - unfold expiryCheck. simpl.
    destruct (tokenExpiry a) as [| |expiryTime] eqn:E; simpl.
    + intros H; left; auto.
    + intros H; left; auto.
    + destruct (expiryTime <=? now); simpl; [discriminate|].
      intros H; left; auto.
  - unfold loadListener. simpl. destruct c as [code|]; simpl;
      try destruct (truthyString code); simpl; intros H; left; auto.
Qed.

(** C2. In every state reached from a first page load by page loads, auth
    checks (with or without a code, restoring or not), logouts, expiry
    checks and redirects: an authenticated session has a non-empty token
    and an expiry that was set, at some time [setAt] not after now, to a
    time strictly after [setAt]; and whatever operation runs next, at a time
    [later], an authenticated session after it is either the one from
    before or has its expiry set by that operation to a time strictly after
    [later]. *)
Theorem authenticated_session_invariant (now : Z) (w : Window) :
  reachable decodePayload now w ->
  (isAuthenticated (authStatus w) = true ->
   exists tok setAt expiry,
     token (authStatus w) = Some tok /\ tok <> ""
     /\ tokenExpiry (authStatus w) = ExpiresAt expiry
     /\ setAt <= now
     /\ expiry = setAt + secondsToMs 3600
     /\ setAt < expiry)
  /\ (forall later op,
        now <= later ->
        isAuthenticated (authStatus (runOp decodePayload later op w)) = true ->
        (isAuthenticated (authStatus w) = true
         /\ token (authStatus (runOp decodePayload later op w))
            = token (authStatus w)
         /\ tokenExpiry (authStatus (runOp decodePayload later op w))
            = tokenExpiry (authStatus w))
        \/ (exists expiry,
              tokenExpiry (authStatus (runOp decodePayload later op w))
              = ExpiresAt expiry
              /\ expiry = later + secondsToMs 3600
              /\ later < expiry)).
Proof.
  intros Hr. split.
  - intros Hauth.
    destruct (reachable_sessionInvariant now w Hr) as [Ha _].
    destruct (Ha Hauth) as (tok & setAt & Ht & Hne & Hle & He).
    exists tok, setAt, (setAt + secondsToMs 3600).
    repeat split; auto. unfold secondsToMs. lia.
  - intros later op _. apply runOp_keeps_or_sets.
Qed.

End AuthProperties.

(** *** Concrete runs of the session store *)



Lemma restore_recomputes_expiry_witness :
  Auth.tokenExpiry
    (Auth.authStatus
       (Auth.checkAuthFromHash Sample.noDecoder 1000
          (Sample.windowWith (Some (Auth.SessionText Sample.savedSession)))))
  = Auth.ExpiresAt (1000 + Auth.secondsToMs 3600).
Proof.
  exact (proj1 (proj2
    (restore_recomputes_expiry Sample.noDecoder 1000 3601000
       (Sample.windowWith (Some (Auth.SessionText Sample.savedSession)))
       Sample.savedSession eq_refl eq_refl eq_refl eq_refl))).
Defined.


Lemma authenticated_session_invariant_witness :
  exists tok setAt expiry,
    Auth.token
      (Auth.authStatus
         (Auth.runOp Sample.noDecoder 1000 Auth.OpCheckAuth
            Sample.windowWithCode)) = Some tok
    /\ tok <> ""
    /\ Auth.tokenExpiry
         (Auth.authStatus
            (Auth.runOp Sample.noDecoder 1000 Auth.OpCheckAuth
               Sample.windowWithCode)) = Auth.ExpiresAt expiry
    /\ setAt <= 1000
    /\ expiry = setAt + Auth.secondsToMs 3600
    /\ setAt < expiry.
Proof.
  apply (proj1
    (authenticated_session_invariant Sample.noDecoder 1000
       (Auth.runOp Sample.noDecoder 1000 Auth.OpCheckAuth
          Sample.windowWithCode)
       (Auth.reach_step Sample.noDecoder 1000 1000 Auth.OpCheckAuth
          Sample.windowWithCode
          (Auth.reach_fresh Sample.noDecoder 1000 (Some "abc123"))
          (Z.le_refl 1000)))).
  reflexivity.
Defined.

(** * Properties of the component *)

Section AppProperties.

Import Json App.

Variable typeErrorMessage : string -> string.
Variable parseInt10 : JValue -> JNumber.
Variable photos_endpoint : string.
Variable upload_endpoint : string.

Local Abbreviation fetchPhotos :=
  (App.fetchPhotos typeErrorMessage parseInt10 photos_endpoint).
Local Abbreviation fetchPhotosTry :=
  (App.fetchPhotosTry typeErrorMessage parseInt10).
Local Abbreviation photoOfItem :=
  (App.photoOfItem typeErrorMessage parseInt10).
Local Abbreviation uploadFile := (App.uploadFile upload_endpoint).
Local Abbreviation monitorTick :=
  (App.monitorTick typeErrorMessage parseInt10 photos_endpoint).
Local Abbreviation monitorRun :=
  (App.monitorRun typeErrorMessage parseInt10 photos_endpoint).

(** *** The upload *)

Lemma applyProgress_fold (progress : list ProgressEvent) (w : World) :
  fold_left applyProgress progress w
  = update (set_uploadProgress
              (lastPercent progress (uploadProgress (app w)))) w.
Proof.
  revert w. induction progress as [|e progress IH]; intros w.
  - destruct w as [[] ? ?]; reflexivity.
  - simpl. rewrite IH. destruct e; destruct w as [[] ? ?]; reflexivity.
Qed.

(** C7. With no file selected, [uploadFile] sets the upload error to
    ["Please select a file to upload."] and does nothing else: no request
    is issued, no timer or monitor is started, and every other field of the
    component keeps its value. *)
Theorem upload_without_file (now : Z) (authToken : option string)
    (x : XhrOutcome) (w : World) :
  fileToUpload (app w) = None ->
  uploadError (app (fst (uploadFile now authToken x w)))
  = Some "Please select a file to upload."
  /\ requests (fst (uploadFile now authToken x w)) = requests w
  /\ timers (fst (uploadFile now authToken x w)) = timers w
  /\ snd (uploadFile now authToken x w) = None
  /\ app (fst (uploadFile now authToken x w))
     = set_uploadError (Some "Please select a file to upload.") (app w)
  /\ fileToUpload (app (fst (uploadFile now authToken x w))) = None
  /\ uploading (app (fst (uploadFile now authToken x w))) = uploading (app w)
  /\ uploadProgress (app (fst (uploadFile now authToken x w)))
     = uploadProgress (app w)
  /\ uploadSuccess (app (fst (uploadFile now authToken x w)))
     = uploadSuccess (app w).
Proof.
  intros H. unfold App.uploadFile. rewrite H. simpl.
  repeat split; auto.
Qed.

(** The upload error after a transfer that ended with status [status]. *)
Lemma upload_rejected_status (now : Z) (authToken : option string)
    (progress : list ProgressEvent) (status : Z) (statusText : string)
    (file : File) (w : World) :
  fileToUpload (app w) = Some file ->
  isSuccessStatus status = false ->
  let w' := fst (uploadFile now authToken
                   (XhrLoad progress status statusText) w) in
  fileToUpload (app w') = Some file
  /\ uploadError (app w')
     = Some ("Upload failed: Upload failed with status: "
             ++ decimal status ++ " - " ++ statusText)
  /\ uploading (app w') = false
  /\ uploadSuccess (app w') = false.
Proof.
  intros Hf Hs. unfold App.uploadFile, uploadToS3. rewrite Hf, Hs.
  rewrite applyProgress_fold. simpl. rewrite Hf. auto.
Qed.

Lemma upload_network_error (now : Z) (authToken : option string)
    (progress : list ProgressEvent) (file : File) (w : World) :
  fileToUpload (app w) = Some file ->
  let w' := fst (uploadFile now authToken (XhrError progress) w) in
  fileToUpload (app w') = Some file
  /\ uploadError (app w')
     = Some "Upload failed: A network error occurred during the upload."
  /\ uploading (app w') = false.
Proof.
  intros Hf. unfold App.uploadFile, uploadToS3. rewrite Hf.
  rewrite applyProgress_fold. simpl. rewrite Hf. auto.
Qed.

Lemma upload_accepted (now : Z) (authToken : option string)
    (progress : list ProgressEvent) (status : Z) (statusText : string)
    (file : File) (w : World) :
  fileToUpload (app w) = Some file ->
  isSuccessStatus status = true ->
  let w' := fst (uploadFile now authToken
                   (XhrLoad progress status statusText) w) in
  fileToUpload (app w') = None
  /\ uploadError (app w') = None
  /\ uploadSuccess (app w') = true
  /\ uploading (app w') = false.
Proof.
  intros Hf Hs. unfold App.uploadFile, uploadToS3. rewrite Hf, Hs.
  rewrite applyProgress_fold. simpl. auto.
Qed.

(** C6. After a file [f] is selected, an upload whose transfer fails (a
    response outside 200..299, or a network error) leaves [fileToUpload]
    equal to [f], sets [uploadError] to a message that contains the status
    of the response (the network-error text when there was no response),
    and ends with [uploading = false]; an upload whose transfer succeeds
    resets [fileToUpload] to [null]. *)
Theorem select_then_upload (now : Z) (authToken : option string)
    (progress : list ProgressEvent) (status : Z) (statusText : string)
    (f : File) (w : World) :
  let selected := handleFileSelect (Some f) w in
  (isSuccessStatus status = false ->
   let w' := fst (uploadFile now authToken
                    (XhrLoad progress status statusText) selected) in
   fileToUpload (app w') = Some f
   /\ (exists message, uploadError (app w') = Some message
                       /\ contains (decimal status) message)
   /\ uploading (app w') = false)
  /\ (let w' := fst (uploadFile now authToken (XhrError progress) selected) in
      fileToUpload (app w') = Some f
      /\ uploadError (app w')
         = Some "Upload failed: A network error occurred during the upload."
      /\ uploading (app w') = false)
  /\ (isSuccessStatus status = true ->
      let w' := fst (uploadFile now authToken
                       (XhrLoad progress status statusText) selected) in
      fileToUpload (app w') = None
      /\ uploading (app w') = false).
Proof.
  intros selected.
  assert (Hsel : fileToUpload (app selected) = Some f) by reflexivity.
  split; [|split].
  - intros Hs.
    destruct (upload_rejected_status now authToken progress status statusText
                f selected Hsel Hs) as (H1 & H2 & H3 & _).
    split; [exact H1|]. split; [|exact H3].
    eexists. split; [exact H2|].
    exists "Upload failed: Upload failed with status: ", (" - " ++ statusText).
    reflexivity.
  - apply (upload_network_error now authToken progress f selected Hsel).
  - intros Hs.
    destruct (upload_accepted now authToken progress status statusText
                f selected Hsel Hs) as (H1 & _ & _ & H4).
    split; assumption.
Qed.

(** *** The listing *)

Lemma truthy_not_nullish (v : JValue) : truthy v = true -> nullish v = false.
Proof. destruct v; simpl; congruence. Qed.

Lemma getProp_path (v : JValue) (k : string) :
  nullish v = false -> getProp typeErrorMessage v k = Ok (path v [k]).
Proof. destruct v; simpl; congruence. Qed.

Lemma getIndex_element (v : JValue) (i : nat) :
  nullish v = false -> getIndex typeErrorMessage v i = Ok (element v i).
Proof.
  destruct v; simpl; try congruence; unfold element; simpl; auto.
  intros _. destruct (String.get i s); reflexivity.
Qed.

Lemma path_undefined (ks : list string) : path JUndefined ks = JUndefined.
Proof. destruct ks; reflexivity. Qed.

Lemma path_step (v : JValue) (k : string) (ks : list string) :
  path v (k :: ks) = path (path v [k]) ks.
Proof. destruct v; simpl; try rewrite path_undefined; reflexivity. Qed.

(** Nothing can be read from a falsy value. *)
Lemma path_falsy (v : JValue) (k : string) (ks : list string) :
  truthy v = false -> path v (k :: ks) = JUndefined.
Proof. destruct v; simpl; congruence. Qed.

Lemma element_falsy (v : JValue) (i : nat) :
  truthy v = false -> element v i = JUndefined.
Proof.
  destruct v; simpl; try congruence; unfold element; simpl; auto.
  unfold truthyString. destruct (String.eqb_spec s ""); simpl; try congruence.
  subst s. destruct i; reflexivity.
Qed.

Lemma wrappedString_ok (item : JValue) (k : string) :
  nullish item = false ->
  exists v, wrappedString typeErrorMessage item k = Ok v.
Proof.
  intros H. unfold wrappedString. rewrite (getProp_path item k H).
  cbn [bindR].
  destruct (truthy (path item [k])) eqn:E.
  - rewrite getProp_path by (apply truthy_not_nullish; exact E). eauto.
  - eauto.
Qed.

Lemma optionalString_ok (m : JValue) (k : string) :
  truthy m = true ->
  optionalString typeErrorMessage m k
  = Ok (if truthy (path m [k; "S"]) then Some (path m [k; "S"]) else None).
Proof.
  intros H. unfold optionalString.
  rewrite getProp_path by (apply truthy_not_nullish; exact H). cbn [bindR].
  rewrite (path_step m k ["S"]).
  destruct (truthy (path m [k])) eqn:E.
  - rewrite getProp_path by (apply truthy_not_nullish; exact E). reflexivity.
  - rewrite (path_falsy _ "S" [] E). reflexivity.
Qed.

Lemma optionalSize_ok (m : JValue) :
  truthy m = true ->
  exists size,
    optionalSize typeErrorMessage parseInt10 m = Ok size
    /\ (truthy (element (path m ["Size"; "L"]) 0) = false
        \/ truthy (element (path m ["Size"; "L"]) 1) = false ->
        size = (None, None)).
Proof.
  intros H. unfold optionalSize.
  rewrite getProp_path by (apply truthy_not_nullish; exact H). cbn [bindR].
  rewrite (path_step m "Size" ["L"]).
  destruct (truthy (path m ["Size"])) eqn:Es; [|eauto].
  rewrite getProp_path by (apply truthy_not_nullish; exact Es). cbn [bindR].
  destruct (truthy (path (path m ["Size"]) ["L"])) eqn:El; [|eauto].
  rewrite !getIndex_element by (apply truthy_not_nullish; exact El).
  cbn [bindR].
  destruct (truthy (element (path (path m ["Size"]) ["L"]) 0)) eqn:E0;
    [|eauto].
  cbn [bindR].
  destruct (truthy (element (path (path m ["Size"]) ["L"]) 1)) eqn:E1;
    [|eauto].
  rewrite !getProp_path by (apply truthy_not_nullish; assumption).
  cbn [bindR]. eexists. split; [reflexivity|].
  intros [F | F]; discriminate.
Qed.

Lemma metadataOfItem_ok (item : JValue) :
  nullish item = false ->
  exists md,
    metadataOfItem typeErrorMessage parseInt10 item = Ok md
    /\ (formatAbsent item -> format md = None)
    /\ (modeAbsent item -> mode md = None)
    /\ (sizeAbsent item -> width md = None /\ height md = None).
Proof.
  intros H. unfold metadataOfItem, formatAbsent, modeAbsent, sizeAbsent.
  rewrite getProp_path by exact H. cbn [bindR].
  rewrite (path_step item "Metadata" ["M"; "Format"; "S"]),
    (path_step item "Metadata" ["M"; "Mode"; "S"]),
    (path_step item "Metadata" ["M"; "Size"; "L"]).
  set (md0 := path item ["Metadata"]).
  destruct (truthy md0) eqn:Emd; [|exists emptyMetadata; simpl; auto].
  rewrite getProp_path by (apply truthy_not_nullish; exact Emd). cbn [bindR].
  rewrite (path_step md0 "M" ["Format"; "S"]),
    (path_step md0 "M" ["Mode"; "S"]), (path_step md0 "M" ["Size"; "L"]).
  set (m := path md0 ["M"]).
  destruct (truthy m) eqn:Em; [|exists emptyMetadata; simpl; auto].
  rewrite !optionalString_ok by exact Em. cbn [bindR].
  destruct (optionalSize_ok m Em) as (size & Hsize & Habs).
  rewrite Hsize. cbn [bindR].
  eexists. split; [reflexivity|]. simpl.
  split; [|split].
  - intros F. now rewrite F.
  - intros F. now rewrite F.
  - intros F. rewrite (Habs F). auto.
Qed.

Lemma photoOfItem_ok (item : JValue) :
  nullish item = false ->
  exists p,
    photoOfItem item = Ok p
    /\ (formatAbsent item -> format (metadata p) = None)
    /\ (modeAbsent item -> mode (metadata p) = None)
    /\ (sizeAbsent item ->
        width (metadata p) = None /\ height (metadata p) = None).
Proof.
  intros H. unfold App.photoOfItem.
  destruct (wrappedString_ok item "ThumbnailURL" H) as [t ->].
  destruct (wrappedString_ok item "OriginalImageURL" H) as [o ->].
  destruct (wrappedString_ok item "ImageMetadataPK" H) as [i ->].
  destruct (metadataOfItem_ok item H) as (md & -> & Hmd).
  simpl. eexists. split; [reflexivity|]. exact Hmd.
Qed.

Lemma mapR_photoOfItem_ok (items : list JValue) :
  Forall (fun item => nullish item = false) items ->
  exists ps,
    mapR photoOfItem items = Ok ps
    /\ Forall2 (fun item p =>
                  (formatAbsent item -> format (metadata p) = None)
                  /\ (modeAbsent item -> mode (metadata p) = None)
                  /\ (sizeAbsent item ->
                      width (metadata p) = None
                      /\ height (metadata p) = None))
               items ps.
Proof.
  induction 1 as [|item items Hitem _ IH].
  - exists []. split; [reflexivity | constructor].
  - destruct (photoOfItem_ok item Hitem) as (p & Hp & Hprops).
    destruct IH as (ps & Hps & Hall).
    exists (p :: ps). simpl. rewrite Hp. simpl. rewrite Hps. simpl.
    split; [reflexivity | constructor; assumption].
Qed.

(** A listing whose [Items] is the array [items]. *)
Lemma fetchPhotos_listing (data : JValue) (items : list JValue)
    (ps : list Photo) (w : World) :
  path data ["Items"] = JArr items ->
  mapR photoOfItem items = Ok ps ->
  app (fetchPhotos (Response true (Json data)) w)
  = set_loading false (set_photos ps (set_error None
                                        (set_loading true (app w)))).
Proof.
  intros Hitems Hps. unfold App.fetchPhotos, App.fetchPhotosTry.
  assert (Ht : truthy data = true).
  { destruct data; simpl in Hitems; try discriminate. reflexivity. }
  rewrite Ht. rewrite getProp_path by (apply truthy_not_nullish; exact Ht).
  rewrite Hitems. simpl. rewrite Hps. reflexivity.
Qed.

(** C8. In a listing whose [Items] is an array of items (none of them
    [null]), whatever optional parts the items lack, parsing raises no
    error: the photo set becomes one photo per item, no error is set, and
    for each item the metadata of its photo has no [format] when [Format]
    is absent, no [mode] when [Mode] is absent, and neither [width] nor
    [height] when the [Size] pair is absent. *)
Theorem listing_tolerates_missing_metadata (data : JValue)
    (items : list JValue) (w : World) :
  path data ["Items"] = JArr items ->
  Forall (fun item => nullish item = false) items ->
  exists ps,
    mapR photoOfItem items = Ok ps
    /\ photos (app (fetchPhotos (Response true (Json data)) w)) = ps
    /\ error (app (fetchPhotos (Response true (Json data)) w)) = None
    /\ loading (app (fetchPhotos (Response true (Json data)) w)) = false
    /\ Forall2 (fun item p =>
                  (formatAbsent item -> format (metadata p) = None)
                  /\ (modeAbsent item -> mode (metadata p) = None)
                  /\ (sizeAbsent item ->
                      width (metadata p) = None
                      /\ height (metadata p) = None))
               items ps.
Proof.
  intros Hitems Hall.
  destruct (mapR_photoOfItem_ok items Hall) as (ps & Hps & Hprops).
  exists ps. rewrite (fetchPhotos_listing data items ps w Hitems Hps).
  repeat split; auto.
Qed.

(** A request that fails: the promise of [fetch] or of [json()] is
    rejected, the response is not ok, or the callback of [map] throws. *)
Lemma fetchPhotos_throw (r : FetchOutcome) (message : string) (w : World) :
  fetchPhotosTry r (set_error None (set_loading true (app w)))
  = Throw message ->
  app (fetchPhotos r w)
  = set_loading false
      (set_error (Some ("Failed to fetch photos: " ++ message))
         (set_error None (set_loading true (app w)))).
Proof.
  intros H. unfold App.fetchPhotos. simpl. rewrite H. reflexivity.
Qed.

(** When the request is rejected, the response is not ok, or its body is no
    JSON, [fetchPhotos] sets an error message and leaves [loading = false],
    but the photos are the ones it started with: they are not emptied. *)
Lemma fetch_failure_keeps_photos (w : World) (message : string)
    (body : Body) :
  (let w' := fetchPhotos (FetchRejected message) w in
   photos (app w') = photos (app w)
   /\ error (app w') = Some ("Failed to fetch photos: " ++ message)
   /\ loading (app w') = false)
  /\ (let w' := fetchPhotos (Response false body) w in
      photos (app w') = photos (app w)
      /\ error (app w')
         = Some "Failed to fetch photos: Network response was not ok"
      /\ loading (app w') = false)
  /\ (let w' := fetchPhotos (Response true (JsonRejected message)) w in
      photos (app w') = photos (app w)
      /\ error (app w') = Some ("Failed to fetch photos: " ++ message)
      /\ loading (app w') = false).
Proof.
  repeat split.
Qed.



(** *** The photo modal and the timer queue *)

Lemma weight_pos (t : Z * Callback) : (1 <= weight t)%nat.
Proof using Type. destruct t as [due []]; unfold weight; simpl; lia. Qed.

Lemma totalWeight_cons (t : Z * Callback) (ts : list (Z * Callback)) :
  totalWeight (t :: ts) = (weight t + totalWeight ts)%nat.
Proof using Type. reflexivity. Qed.

Lemma totalWeight_app (ts us : list (Z * Callback)) :
  totalWeight (ts ++ us) = (totalWeight ts + totalWeight us)%nat.
Proof using Type.
  unfold totalWeight. rewrite map_app, list_sum_app. reflexivity.
Qed.

Lemma nextTimer_None (ts : list (Z * Callback)) :
  nextTimer ts = None -> ts = [].
Proof using Type.
  destruct ts as [|t rest]; [reflexivity|]. simpl.
  destruct (nextTimer rest) as [[t' rest']|]; [|discriminate].
  destruct (fst t <=? fst t'); discriminate.
Qed.

(** [nextTimer] takes out a timeout that is due first. *)
Lemma nextTimer_Some (ts : list (Z * Callback)) :
  forall x rest,
    nextTimer ts = Some (x, rest) ->
    (forall y, In y ts <-> y = x \/ In y rest)
    /\ (forall y, In y ts -> fst x <= fst y)
    /\ totalWeight ts = (weight x + totalWeight rest)%nat.
Proof using Type.
  induction ts as [|t r IH]; intros x rest H; [discriminate|].
  simpl in H. destruct (nextTimer r) as [[t' rest']|] eqn:E.
  - destruct (IH t' rest' eq_refl) as (Hin & Hmin & Hw).
    destruct (fst t <=? fst t') eqn:C; injection H as <- <-.
    + apply Z.leb_le in C. repeat split.
      * simpl. intros [->|Hy]; auto.
      * simpl. intros [<-|Hy]; auto.
      * intros y [<-|Hy]; [lia|]. specialize (Hmin y Hy). lia.
    + apply Z.leb_gt in C. repeat split.
      * simpl. intros [->|Hy]; auto. apply Hin in Hy.
        destruct Hy as [Hy|Hy]; auto.
      * simpl. intros [->|[<-|Hy]]; auto.
        -- right. apply Hin. auto.
        -- right. apply Hin. auto.
      * intros y [<-|Hy]; [lia|]. apply Hmin. exact Hy.
      * rewrite !totalWeight_cons, Hw. lia.
  - apply nextTimer_None in E. subst r. injection H as <- <-.
    repeat split.
    + simpl. intros [->|[]]. auto.
    + simpl. intros [<-|[]]. auto.
    + intros y [<-|[]]. lia.
Qed.

Lemma runCallback_showModal (now : Z) (cb : Callback) (w : World) :
  showModal (app (runCallback now cb w)) = showModal (app w).
Proof using Type. destruct cb; reflexivity. Qed.

Lemma runTimers_showModal (fuel : nat) (t : Z) (w : World) :
  showModal (app (runTimers fuel t w)) = showModal (app w).
Proof using Type.
  revert w. induction fuel as [|fuel IH]; intros w; [reflexivity|].
  simpl. destruct (nextTimer (timers w)) as [[[due cb] rest]|]; auto.
  destruct (due <=? t); auto.
  rewrite IH, runCallback_showModal. reflexivity.
Qed.

(** Once every timeout due by [t] has run, a pending [ClearModal] due by
    [t] has cleared the modal; a modal already cleared stays so. *)
Lemma runTimers_clears (fuel : nat) (t : Z) (w : World) :
  (totalWeight (timers w) <= fuel)%nat ->
  (exists due, In (due, ClearModal) (timers w) /\ due <= t)
  \/ (selectedPhoto (app w) = None /\ modalLoading (app w) = false) ->
  selectedPhoto (app (runTimers fuel t w)) = None
  /\ modalLoading (app (runTimers fuel t w)) = false.
Proof using Type.
  revert w. induction fuel as [|fuel IH]; intros w Hfuel HP.
  - simpl. destruct HP as [(due & Hin & _)|HP]; [|exact HP].
    destruct (timers w) as [|x ts]; [destruct Hin|].
    rewrite totalWeight_cons in Hfuel. pose proof (weight_pos x). lia.
  - simpl. destruct (nextTimer (timers w)) as [[[due cb] rest]|] eqn:E.
    + destruct (nextTimer_Some _ _ _ E) as (Hin & Hmin & Hw).
      destruct (due <=? t) eqn:D.
      * apply IH.
        -- rewrite Hw in Hfuel.
           destruct cb; simpl in *; rewrite ?totalWeight_app;
             try change (totalWeight [(due + 5000, ResetUploadSuccess)])
                   with 1%nat;
             lia.
        -- destruct cb; simpl; auto.
           ++ destruct HP as [(d & Hd & Hle)|HP]; [left|right; exact HP].
              exists d. split; [|exact Hle]. apply in_or_app. left.
              apply Hin in Hd. destruct Hd as [Hd|Hd]; [discriminate|auto].
           ++ destruct HP as [(d & Hd & Hle)|HP]; [left|right; exact HP].
              exists d. split; [|exact Hle].
              apply Hin in Hd. destruct Hd as [Hd|Hd]; [discriminate|auto].
      * apply Z.leb_gt in D.
        destruct HP as [(d & Hd & Hle)|HP]; [|exact HP].
        specialize (Hmin _ Hd). simpl in Hmin. lia.
    + apply nextTimer_None in E.
      destruct HP as [(d & Hd & _)|HP]; [|exact HP].
      rewrite E in Hd. destruct Hd.
Qed.

Lemma closed_modal_after_delay (now t : Z) (w : World) :
  now + 300 <= t ->
  showModal (app (advanceTo t (closePhotoModal now w))) = false
  /\ selectedPhoto (app (advanceTo t (closePhotoModal now w))) = None
  /\ modalLoading (app (advanceTo t (closePhotoModal now w))) = false.
Proof using Type.
  intros Hle. unfold advanceTo. split.
  - rewrite runTimers_showModal. reflexivity.
  - apply runTimers_clears; [apply Nat.le_refl|].
    left. exists (now + 300). split; [|exact Hle].
    simpl. apply in_or_app. right. left. reflexivity.
Qed.

(** C9. Closing the modal twice in succession, from any state and whatever
    other timeouts are pending, leaves after the 300 ms delay the same
    modal state as closing it once: [showModal = false],
    [selectedPhoto = null], [modalLoading = false]. Both calls are total:
    nothing is raised. *)
Theorem closePhotoModal_twice (now1 now2 t : Z) (w : World) :
  now1 <= now2 -> now2 + 300 <= t ->
  let once := advanceTo t (closePhotoModal now1 w) in
  let twice := advanceTo t (closePhotoModal now2 (closePhotoModal now1 w)) in
  (showModal (app twice) = false
   /\ selectedPhoto (app twice) = None
   /\ modalLoading (app twice) = false)
  /\ (showModal (app twice) = showModal (app once)
      /\ selectedPhoto (app twice) = selectedPhoto (app once)
      /\ modalLoading (app twice) = modalLoading (app once)).
Proof using Type.
  intros H12 Ht once twice.
  assert (H2 := closed_modal_after_delay now2 t (closePhotoModal now1 w) Ht).
  assert (Ht1 : now1 + 300 <= t) by lia.
  assert (H1 := closed_modal_after_delay now1 t w Ht1).
  fold once in H1. fold twice in H2.
  destruct H1 as (A1 & B1 & C1). destruct H2 as (A2 & B2 & C2).
  rewrite A1, B1, C1, A2, B2, C2. repeat split.
Qed.

(** With nothing else pending, the whole component ends in the same state
    either way. *)
Lemma closePhotoModal_twice_same_world (now t : Z) (w : World) :
  timers w = [] -> now + 300 <= t ->
  advanceTo t (closePhotoModal now (closePhotoModal now w))
  = advanceTo t (closePhotoModal now w).
Proof using Type.
  intros Hts Ht. destruct w as [s ts rq]. simpl in Hts. subst ts.
  unfold advanceTo, closePhotoModal. simpl.
  rewrite Z.leb_refl. apply Z.leb_le in Ht.
  repeat (rewrite ?Ht; simpl). reflexivity.
Qed.

(** *** The processing monitor *)

(** [fetchPhotos] does not touch the processing fields. *)
Lemma fetchPhotos_processing (r : FetchOutcome) (w : World) :
  processingProgress (app (fetchPhotos r w)) = processingProgress (app w)
  /\ processingMessage (app (fetchPhotos r w)) = processingMessage (app w).
Proof.
  unfold App.fetchPhotos, App.fetchPhotosTry.
  destruct r as [message | [|] [message | data]]; simpl; auto.
  destruct (if truthy data then getProp typeErrorMessage data "Items"
            else Ok JUndefined) as [items | message]; simpl; auto.
  destruct items; simpl; auto.
  destruct (mapR photoOfItem elems); simpl; auto.
Qed.



Lemma monitorTick_stopped (now : Z) (r : FetchOutcome) (m : Monitor)
    (w : World) :
  running m = false -> monitorTick now r (m, w) = (m, w).
Proof. intros H. unfold App.monitorTick. rewrite H. reflexivity. Qed.



End AppProperties.

(** *** Concrete runs of the component *)

(** C4 (the code at a failing input). The component shows one photo and the
    listing request comes back not ok: an error is set and [loading] is
    false, but the photo is still there. *)
Theorem fetch_failure_leaves_stale_photos :
  App.photos
    (App.app
       (Sample.fetchPhotos (App.Response false (App.JsonRejected ""))
          Sample.showingOnePhoto))
  = [Sample.photo1]
  /\ App.error
       (App.app
          (Sample.fetchPhotos (App.Response false (App.JsonRejected ""))
             Sample.showingOnePhoto))
     = Some "Failed to fetch photos: Network response was not ok"
  /\ App.loading
       (App.app
          (Sample.fetchPhotos (App.Response false (App.JsonRejected ""))
             Sample.showingOnePhoto))
     = false.
Proof.
  exact (proj1 (proj2
    (fetch_failure_keeps_photos Sample.typeErrorMessage Sample.parseInt10
       Sample.photosEndpoint Sample.showingOnePhoto ""
       (App.JsonRejected "")))).
Qed.

(** A null entry in [Items] makes the callback of [map] throw; this too is
    reported as a failed fetch and leaves the photos as they were. *)
Example fetch_null_item :
  App.photos
    (App.app
       (Sample.fetchPhotos
          (App.Response true (App.Json (Sample.listing [Json.JNull])))
          Sample.showingOnePhoto))
  = [Sample.photo1]
  /\ App.error
       (App.app
          (Sample.fetchPhotos
             (App.Response true (App.Json (Sample.listing [Json.JNull])))
             Sample.showingOnePhoto))
     = Some ("Failed to fetch photos: "
             ++ Sample.typeErrorMessage "ThumbnailURL").
Proof. split; reflexivity. Qed.

Example fetch_two_items :
  map App.metadata
    (App.photos
       (App.app
          (Sample.fetchPhotos
             (App.Response true
                (App.Json (Sample.listing [Sample.bareItem; Sample.fullItem])))
             Sample.showingOnePhoto)))
  = [App.emptyMetadata;
     App.mkMetadata (Some (Json.JStr "JPEG")) (Some (Json.JStr "RGB"))
                    (Some (Json.Num 800)) (Some (Json.Num 600))].
Proof. reflexivity. Qed.

Lemma listing_tolerates_missing_metadata_witness :
  exists ps,
    mapR (App.photoOfItem Sample.typeErrorMessage Sample.parseInt10)
         [Sample.bareItem; Sample.fullItem] = Ok ps
    /\ App.photos
         (App.app
            (Sample.fetchPhotos
               (App.Response true
                  (App.Json
                     (Sample.listing [Sample.bareItem; Sample.fullItem])))
               Sample.showingOnePhoto)) = ps
    /\ App.error
         (App.app
            (Sample.fetchPhotos
               (App.Response true
                  (App.Json
                     (Sample.listing [Sample.bareItem; Sample.fullItem])))
               Sample.showingOnePhoto)) = None
    /\ App.loading
         (App.app
            (Sample.fetchPhotos
               (App.Response true
                  (App.Json
                     (Sample.listing [Sample.bareItem; Sample.fullItem])))
               Sample.showingOnePhoto)) = false
    /\ Forall2
         (fun item p =>
            (App.formatAbsent item -> App.format (App.metadata p) = None)
            /\ (App.modeAbsent item -> App.mode (App.metadata p) = None)
            /\ (App.sizeAbsent item ->
                App.width (App.metadata p) = None
                /\ App.height (App.metadata p) = None))
         [Sample.bareItem; Sample.fullItem] ps.
Proof.
  apply (listing_tolerates_missing_metadata Sample.typeErrorMessage
           Sample.parseInt10 Sample.photosEndpoint
           (Sample.listing [Sample.bareItem; Sample.fullItem])
           [Sample.bareItem; Sample.fullItem] Sample.showingOnePhoto).
  - reflexivity.
  - repeat constructor.
Defined.

Lemma upload_without_file_witness :
  App.uploadError
    (App.app
       (fst (Sample.uploadFile 1000 None (App.XhrError [])
               Sample.showingOnePhoto)))
  = Some "Please select a file to upload."
  /\ App.requests
       (fst (Sample.uploadFile 1000 None (App.XhrError [])
               Sample.showingOnePhoto))
     = App.requests Sample.showingOnePhoto.
Proof.
  pose proof (upload_without_file Sample.uploadEndpoint 1000 None
                (App.XhrError []) Sample.showingOnePhoto eq_refl)
    as (H1 & H2 & _).
  split; [exact H1 | exact H2].
Defined.

(** The storage write answers 500. *)
Example upload_500 :
  App.uploadError
    (App.app
       (fst (Sample.uploadFile 1000 (Some "id-abc")
               (App.XhrLoad [App.Percent 40; App.Percent 100] 500
                            "Internal Server Error")
               (App.handleFileSelect (Some Sample.file1)
                                     Sample.showingOnePhoto))))
  = Some "Upload failed: Upload failed with status: 500 - Internal Server Error"
  /\ App.requests
       (fst (Sample.uploadFile 1000 (Some "id-abc")
               (App.XhrLoad [App.Percent 40; App.Percent 100] 500
                            "Internal Server Error")
               (App.handleFileSelect (Some Sample.file1)
                                     Sample.showingOnePhoto)))
     = [App.Put "https://api.example/bucket/1000-cat.png" "image/png"
                (Some "Bearer id-abc") Sample.file1].
Proof. split; reflexivity. Qed.

Lemma select_then_upload_witness :
  App.fileToUpload
    (App.app
       (fst (Sample.uploadFile 1000 None
               (App.XhrLoad [] 500 "Internal Server Error")
               (App.handleFileSelect (Some Sample.file1)
                                     Sample.showingOnePhoto))))
  = Some Sample.file1
  /\ App.fileToUpload
       (App.app
          (fst (Sample.uploadFile 1000 None (App.XhrLoad [] 200 "OK")
                  (App.handleFileSelect (Some Sample.file1)
                                        Sample.showingOnePhoto))))
     = None.
Proof.
  split.
  - exact (proj1 (proj1
      (select_then_upload Sample.uploadEndpoint 1000 None [] 500
         "Internal Server Error" Sample.file1 Sample.showingOnePhoto)
      eq_refl)).
  - exact (proj1 (proj2 (proj2
      (select_then_upload Sample.uploadEndpoint 1000 None [] 200
         "OK" Sample.file1 Sample.showingOnePhoto))
      eq_refl)).
Defined.

Lemma closePhotoModal_twice_witness :
  App.selectedPhoto
    (App.app
       (App.advanceTo 300
          (App.closePhotoModal 0
             (App.closePhotoModal 0
                (App.openPhotoModal Sample.photo1 Sample.showingOnePhoto)))))
  = None.
Proof.
  exact (proj1 (proj2 (proj1
    (closePhotoModal_twice 0 0 300
       (App.openPhotoModal Sample.photo1 Sample.showingOnePhoto)
       (Z.le_refl 0) (Z.le_refl 300))))).
Defined.


(** Seven polls that all fail: the monitor runs for the whole seventy
    seconds, the progress going 17, 33, 50, 67, 83, 95 and then 100. *)
Example monitor_progress_values :
  map (fun k =>
         App.processingProgress
           (App.app
              (snd (Sample.monitorRun 0
                      (repeat (App.FetchRejected "offline") k)
                      (snd (App.startImageProcessingMonitor
                              Sample.showingOnePhoto),
                       fst (App.startImageProcessingMonitor
                              Sample.showingOnePhoto))))))
      [0; 1; 2; 3; 4; 5; 6; 7; 8]%nat
  = [0; 17; 33; 50; 67; 83; 95; 100; 100].
Proof. reflexivity. Qed.

(** The emissions of the check after the return from the identity
    provider. *)
Example checkAuth_with_code_emissions :
  map Auth.loading
    (Auth.dispatched
       (Auth.checkAuthFromHash Sample.noDecoder 1000 Sample.windowWithCode))
  = [false; false]
  /\ Auth.token
       (Auth.authStatus
          (Auth.checkAuthFromHash Sample.noDecoder 1000 Sample.windowWithCode))
     = Some "id-abc123".
Proof. split; reflexivity. Qed.

(** * Further properties of the session store *)

Section SessionStore.

Import Auth.

Variable decodePayload : string -> Result Payload.

Local Abbreviation checkAuth := (checkAuthFromHash decodePayload).
Local Abbreviation setUser := (setAuthenticatedUser decodePayload).

Lemma truthyString_nonempty (s : string) : truthyString s = true -> s <> "".
Proof.
  unfold truthyString. destruct (String.eqb_spec s ""); simpl; congruence.
Qed.

Lemma usernameOfIdToken_nonempty (t : string) :
  usernameOfIdToken decodePayload t <> "".
Proof.
  unfold usernameOfIdToken.
  destruct (split "." t) as [|a [|b [|c [|d l]]]]; try discriminate.
  destruct (decodePayload b) as [payload|m]; try discriminate.
  destruct (jsOr (jsOr (p_name payload) (p_email payload))
                 (p_username payload)) as [n|]; try discriminate.
  destruct (truthyString n) eqn:E; try discriminate.
  apply truthyString_nonempty. exact E.
Qed.

Lemma usernameOf_nonempty (tokenData : TokenData) :
  usernameOf decodePayload tokenData <> "".
Proof.
  assert (H : (match td_id_token tokenData with
               | Some t => if truthyString t
                           then usernameOfIdToken decodePayload t else "User"
               | None => "User"
               end) <> "").
  { destruct (td_id_token tokenData) as [t|]; try discriminate.
    destruct (truthyString t); try discriminate.
    apply usernameOfIdToken_nonempty. }
  unfold usernameOf.
  destruct (td_username tokenData) as [u|]; [|exact H].
  destruct (truthyString u) eqn:E; [|exact H].
  apply truthyString_nonempty. exact E.
Qed.



(** X3. A logout lasts: after [logoutUser], a page load without a code and
    its check leave the cleared session, nothing stored, and a single
    notification. *)
Theorem logout_is_durable (now : Z) (w : Window) :
  authStatus (checkAuth now (pageLoad None (logoutUser w))) = emptyAuthStatus
  /\ localStorage (checkAuth now (pageLoad None (logoutUser w))) = None
  /\ dispatched (checkAuth now (pageLoad None (logoutUser w)))
     = [emptyAuthStatus].
Proof. repeat split. Qed.

(** The session right after the exchange of a code. *)
Lemma exchange_session (now : Z) (authCode : string) (w : Window) :
  urlCode w = Some authCode -> truthyString authCode = true ->
  authStatus (checkAuth now w)
  = mkAuthStatus true "Authenticated User" (Some ("id-" ++ authCode))
                 (ExpiresAt (now + secondsToMs 3600)) false
  /\ urlCode (checkAuth now w) = None
  /\ localStorage (checkAuth now w)
     = Some (SessionText (authStatus (checkAuth now w))).
Proof.
  intros Hc Ht. unfold checkAuthFromHash, exchangeOrRestore.
  destruct w as [a st c d]. simpl in *. subst c. rewrite Ht.
  repeat split.
Qed.

(** X4. After the exchange of a code at time [now], the expiry check
    leaves the session alone as long as less than an hour has passed, and
    from then on clears it and removes the stored copy. *)
Theorem expiry_check_after_exchange (now later : Z) (authCode : string)
    (w : Window) :
  urlCode w = Some authCode -> truthyString authCode = true ->
  (later < now + secondsToMs 3600 ->
   expiryCheck later (checkAuth now w) = checkAuth now w)
  /\ (now + secondsToMs 3600 <= later ->
      authStatus (expiryCheck later (checkAuth now w)) = emptyAuthStatus
      /\ localStorage (expiryCheck later (checkAuth now w)) = None).
Proof.
  intros Hc Ht.
  destruct (exchange_session now authCode w Hc Ht) as (Ha & _ & _).
  unfold expiryCheck. rewrite Ha. cbn [tokenExpiry]. split.
  - intros H. apply Z.leb_gt in H. rewrite H. reflexivity.
  - intros H. apply Z.leb_le in H. rewrite H. split; reflexivity.
Qed.

(** X5. The exchange uses the code up: afterwards the URL carries no code,
    and the token of the session is ["id-"] followed by the whole code, so
    that two different codes give two different tokens. *)
Theorem exchange_consumes_code (now1 now2 : Z) (code1 code2 : string)
    (w1 w2 : Window) :
  urlCode w1 = Some code1 -> truthyString code1 = true ->
  urlCode w2 = Some code2 -> truthyString code2 = true ->
  urlCode (checkAuth now1 w1) = None
  /\ hasCode (checkAuth now1 w1) = false
  /\ token (authStatus (checkAuth now1 w1)) = Some ("id-" ++ code1)
  /\ (token (authStatus (checkAuth now1 w1))
      = token (authStatus (checkAuth now2 w2)) -> code1 = code2).
Proof.
  intros Hc1 Ht1 Hc2 Ht2.
  destruct (exchange_session now1 code1 w1 Hc1 Ht1) as (Ha1 & Hu1 & _).
  destruct (exchange_session now2 code2 w2 Hc2 Ht2) as (Ha2 & _ & _).
  unfold hasCode. rewrite Hu1, Ha1, Ha2. simpl.
  repeat split. intros H. injection H as H. exact H.
Qed.

(** X6. The check notifies twice when it changes the session (it exchanges
    a code, restores a stored session, or clears an expired or unreadable
    one) and once when nothing usable is stored. *)
Theorem checkAuth_emission_count (now : Z) (w : Window) :
  exists emitted,
    dispatched (checkAuth now w) = (dispatched w ++ emitted)%list
    /\ length emitted
       = if hasCode w then 2%nat
         else match localStorage w with
              | Some (SessionText _) => 2%nat
              | Some Malformed => 2%nat
              | Some EmptyText => 1%nat
              | None => 1%nat
              end.
Proof.
  unfold checkAuthFromHash, exchangeOrRestore, restoreSession, hasCode.
  destruct w as [a st c d]. simpl.
  destruct c as [authCode|]; simpl;
    try destruct (truthyString authCode); simpl;
    try (destruct st as [[| |saved]|]; simpl;
         try destruct (notExpired now (tokenExpiry saved)); simpl);
    rewrite <- ?app_assoc; simpl;
    (eexists; split; [reflexivity | reflexivity]).
Qed.

(** X7. With no code in the URL, a stored item that cannot be read as a
    session is removed by the check, which leaves the cleared session; an
    empty stored item is neither read nor removed, and the session is left
    as it was. *)
Theorem unreadable_storage (now : Z) (w : Window) :
  hasCode w = false ->
  (localStorage w = Some Malformed ->
   authStatus (checkAuth now w) = emptyAuthStatus
   /\ localStorage (checkAuth now w) = None)
  /\ (localStorage w = Some EmptyText ->
      localStorage (checkAuth now w) = Some EmptyText
      /\ authStatus (checkAuth now w) = set_loading false (authStatus w)).
Proof.
  intros Hc. rewrite (restoreSession_check decodePayload now w Hc).
  unfold restoreSession. destruct w as [a st c d]. simpl.
  split; intros ->; simpl; split; reflexivity.
Qed.

(** *** The stored copy of the session *)

Lemma persisted_loading (b : bool) (w : Window) :
  persistedCopyAgrees w ->
  persistedCopyAgrees (set_authStatus (set_loading b (authStatus w)) w).
Proof. unfold persistedCopyAgrees. destruct w as [[] st c d]. simpl. auto. Qed.

Lemma persisted_dispatch (w : Window) :
  persistedCopyAgrees w -> persistedCopyAgrees (dispatchEvent w).
Proof. unfold persistedCopyAgrees. destruct w as [a st c d]. simpl. auto. Qed.

Lemma persisted_urlCode (code : option string) (w : Window) :
  persistedCopyAgrees w -> persistedCopyAgrees (set_urlCode code w).
Proof. unfold persistedCopyAgrees. destruct w as [a st c d]. simpl. auto. Qed.

Lemma persisted_clear (w : Window) : persistedCopyAgrees (clearAuthData w).
Proof. unfold persistedCopyAgrees. simpl. discriminate. Qed.

Lemma persisted_set (now : Z) (tokenData : TokenData) (w : Window) :
  persistedCopyAgrees (setUser now tokenData w).
Proof.
  unfold persistedCopyAgrees. intros _. split.
  - apply usernameOf_nonempty.
  - eexists. simpl. repeat split.
Qed.

Lemma persisted_restore (now : Z) (w : Window) :
  persistedCopyAgrees w ->
  persistedCopyAgrees (restoreSession decodePayload now w).
Proof.
  intros H. unfold restoreSession.
  destruct (localStorage w) as [[| |saved]|]; auto using persisted_clear.
  destruct (notExpired now (tokenExpiry saved));
    auto using persisted_clear, persisted_set.
Qed.

Lemma persisted_runOp (now : Z) (op : Op) (w : Window) :
  persistedCopyAgrees w -> persistedCopyAgrees (runOp decodePayload now op w).
Proof.
  intros H. destruct op; simpl.
  - unfold persistedCopyAgrees. simpl. discriminate.
  - unfold checkAuthFromHash, exchangeOrRestore.
    apply persisted_dispatch, persisted_loading.
    apply (persisted_loading true) in H. cbn [urlCode set_authStatus].
    destruct (urlCode w) as [authCode|].
    + destruct (truthyString authCode).
      * apply persisted_urlCode, persisted_set.
      * apply persisted_restore. exact H.
    + apply persisted_restore. exact H.
  - apply persisted_clear.
  - unfold expiryCheck.
    destruct (tokenExpiry (authStatus w)) as [| |expiryTime]; auto.
    destruct (expiryTime <=? now); auto using persisted_clear.
  - apply persisted_dispatch, persisted_loading. exact H.
  - apply persisted_dispatch, persisted_loading. exact H.
  - unfold loadListener. destruct (urlCode w) as [authCode|]; auto.
    destruct (truthyString authCode); auto using persisted_loading.
Qed.

(** X8. In every reachable state an authenticated session has a non-empty
    user name and is stored: the stored item is a session with the same
    user name, token and expiry. *)
Theorem authenticated_session_is_stored (now : Z) (w : Window) :
  reachable decodePayload now w ->
  isAuthenticated (authStatus w) = true ->
  username (authStatus w) <> ""
  /\ exists saved,
       localStorage w = Some (SessionText saved)
       /\ isAuthenticated saved = true
       /\ username saved = username (authStatus w)
       /\ token saved = token (authStatus w)
       /\ tokenExpiry saved = tokenExpiry (authStatus w).
Proof.
  intros Hr.
  change (persistedCopyAgrees w).
  induction Hr as [now code | t now op w Hr IH Hle].
  - unfold persistedCopyAgrees. simpl. discriminate.
  - apply persisted_runOp. exact IH.
Qed.

End SessionStore.

(** * Properties of the environment loader and of the configuration *)

Section EnvLoaderProperties.

Import EnvLoader.

(** *** Strings *)

Lemma append_empty_r (s : string) : s ++ "" = s.
Proof. induction s as [|c s IH]; simpl; congruence. Qed.

Lemma append_assoc (a b c : string) : (a ++ b) ++ c = a ++ (b ++ c).
Proof. induction a as [|x a IH]; simpl; congruence. Qed.

Lemma length_append (a b : string) :
  String.length (a ++ b) = (String.length a + String.length b)%nat.
Proof. induction a as [|x a IH]; simpl; congruence. Qed.

Lemma substring_whole_prefix (a b : string) :
  substring 0 (String.length a) (a ++ b) = a.
Proof.
  induction a as [|x a IH]; simpl.
  - destruct b; reflexivity.
  - rewrite IH. reflexivity.
Qed.

Lemma substring_skip_prefix (a b : string) (n : nat) :
  substring (String.length a) n (a ++ b) = substring 0 n b.
Proof. induction a as [|x a IH]; simpl; auto. Qed.

Lemma substring_whole (s : string) : substring 0 (String.length s) s = s.
Proof.
  rewrite <- (append_empty_r s) at 2. apply substring_whole_prefix.
Qed.

Lemma consumed_append (a b : string) : consumed (a ++ b) b = a.
Proof.
  unfold consumed. rewrite length_append.
  replace (String.length a + String.length b - String.length b)%nat
    with (String.length a) by lia.
  apply substring_whole_prefix.
Qed.

Lemma consumed_cons_append (c : ascii) (a b : string) :
  consumed (String c (a ++ b)) b = String c a.
Proof. apply (consumed_append (String c a) b). Qed.

(** *** The matcher *)

(** A greedy repetition takes the whole run in front of it when what
    follows the run is accepted. *)
Lemma starK_greedy {R : Type} (p : ascii -> bool) (run rest : string)
    (k : string -> option R) (r : R) :
  allChars p run = true -> headOutside p rest = true ->
  k rest = Some r -> starK p (run ++ rest) k = Some r.
Proof.
  intros Hrun Hrest Hk. induction run as [|c run IH]; simpl in *.
  - destruct rest as [|c rest]; simpl in *; [exact Hk|].
    apply negb_true_iff in Hrest. rewrite Hrest. exact Hk.
  - apply andb_true_iff in Hrun. destruct Hrun as [Hc Hrun].
    rewrite Hc, (IH Hrun). reflexivity.
Qed.

Lemma keyChar_facts (c : ascii) :
  isKeyChar c = true ->
  isWhitespace c = false /\ isEquals c = false
  /\ Ascii.eqb "#" c = false.
Proof.
  destruct c as [[] [] [] [] [] [] [] []]; vm_compute; intros H;
    try discriminate H; auto.
Qed.

Lemma whitespace_facts (c : ascii) :
  isWhitespace c = true ->
  isKeyChar c = false /\ isEquals c = false /\ Ascii.eqb "#" c = false.
Proof.
  destruct c as [[] [] [] [] [] [] [] []]; vm_compute; intros H;
    try discriminate H; auto.
Qed.

Lemma headOutside_after_whitespace (p : ascii -> bool) (ws rest : string) :
  allChars isWhitespace ws = true ->
  (forall c, isWhitespace c = true -> p c = false) ->
  headOutside p rest = true ->
  headOutside p (ws ++ rest) = true.
Proof.
  intros Hws Hp Hrest. destruct ws as [|c ws]; simpl in *; [exact Hrest|].
  apply andb_true_iff in Hws. destruct Hws as [Hc _].
  rewrite (Hp c Hc). reflexivity.
Qed.

(** The captures of a line of the shape
    [ws1 key ws2 = ws3 value trail]. *)
Lemma matchWhole_assignment (ws1 key ws2 ws3 value trail : string) :
  allChars isWhitespace ws1 = true ->
  allChars isKeyChar key = true -> key <> "" ->
  allChars isWhitespace ws2 = true ->
  allChars isWhitespace ws3 = true ->
  headOutside isWhitespace (value ++ trail) = true ->
  allChars isDot value = true ->
  allChars isWhitespace trail = true -> headOutside isDot trail = true ->
  matchWhole envLine
    (ws1 ++ key ++ ws2 ++ "=" ++ ws3 ++ value ++ trail)
  = Some (if truthyString value then [(2%nat, value); (1%nat, key)]
          else [(1%nat, key)]).
Proof.
  intros Hws1 Hkey Hne Hws2 Hws3 Hhead Hval Htrail Htrail'.
  destruct key as [|c key]; [congruence|].
  simpl in Hkey. apply andb_true_iff in Hkey. destruct Hkey as [Hc Hkey].
  destruct (keyChar_facts c Hc) as (Hcw & _ & _).
  unfold matchWhole, envLine. cbn [run].
  apply starK_greedy; [exact Hws1 | simpl; now rewrite Hcw |].
  cbn [append]. rewrite Hc.
  apply starK_greedy; [exact Hkey | |].
  { apply headOutside_after_whitespace; auto.
    intros x Hx. apply (whitespace_facts x Hx). }
  rewrite consumed_cons_append.
  apply starK_greedy; [exact Hws2 | reflexivity |].
  cbn [append]. cbn [Ascii.eqb Bool.eqb].
  apply starK_greedy; [exact Hws3 | exact Hhead |].
  destruct value as [|v value].
  - (* no value: the optional group is not taken *)
    simpl in Hhead. simpl append.
    assert (trail = "") as ->.
    { destruct trail as [|t trail]; [reflexivity|]. simpl in *.
      apply andb_true_iff in Htrail. destruct Htrail as [Ht _].
      rewrite Ht in Hhead. discriminate. }
    reflexivity.
  - rewrite (starK_greedy isDot (String v value) trail _
               [(2%nat, String v value); (1%nat, String c key)]);
      auto.
    rewrite consumed_append, length_append.
    replace (String.length trail
             =? String.length (String v value) + String.length trail)%nat
      with false by (symmetry; apply Nat.eqb_neq; simpl; lia).
    rewrite <- (append_empty_r trail).
    apply starK_greedy; auto.
Qed.

Lemma startsWith_hash_false (c : ascii) (s : string) :
  Ascii.eqb "#" c = false -> startsWith "#" (String c s) = false.
Proof.
  intros H. unfold startsWith.
  change (prefix "#" (String c s))
    with (if ascii_dec "#" c then prefix "" s else false).
  destruct (ascii_dec "#" c) as [E|E]; [|reflexivity].
  subst c. discriminate H.
Qed.

(** A line of the shape [ws1 key ws2 = ws3 value trail]. *)
Lemma parseLine_shape (env : Env)
    (ws1 key ws2 ws3 value trail : string) :
  allChars isWhitespace ws1 = true ->
  allChars isKeyChar key = true -> key <> "" ->
  allChars isWhitespace ws2 = true ->
  allChars isWhitespace ws3 = true ->
  headOutside isWhitespace (value ++ trail) = true ->
  allChars isDot value = true ->
  allChars isWhitespace trail = true -> headOutside isDot trail = true ->
  parseLine env (ws1 ++ key ++ ws2 ++ "=" ++ ws3 ++ value ++ trail)
  = setProperty key (stripQuotes value) env.
Proof.
  intros Hws1 Hkey Hne Hws2 Hws3 Hhead Hval Htrail Htrail'.
  unfold parseLine.
  rewrite (matchWhole_assignment ws1 key ws2 ws3 value trail) by assumption.
  assert (Hskip : negb (truthyString
                          (ws1 ++ key ++ ws2 ++ "=" ++ ws3 ++ value ++ trail))
                  || startsWith "#"
                       (ws1 ++ key ++ ws2 ++ "=" ++ ws3 ++ value ++ trail)
                  = false).
  { destruct ws1 as [|w ws1].
    - destruct key as [|c key]; [congruence|]. simpl in Hkey.
      apply andb_true_iff in Hkey. destruct Hkey as [Hc _].
      destruct (keyChar_facts c Hc) as (_ & _ & Hh).
      cbn [append]. rewrite (startsWith_hash_false c _ Hh). reflexivity.
    - simpl in Hws1. apply andb_true_iff in Hws1. destruct Hws1 as [Hw _].
      destruct (whitespace_facts w Hw) as (_ & _ & Hh).
      cbn [append]. rewrite (startsWith_hash_false w _ Hh). reflexivity. }
  rewrite Hskip.
  destruct (truthyString value) eqn:Ev; simpl; [rewrite Ev; reflexivity|].
  unfold truthyString in Ev. destruct (String.eqb_spec value "");
    [subst; reflexivity | discriminate].
Qed.

(** X9. A line made of a key (word characters, dots, dashes), an equals
    sign and a value assigns the value to the key. White space around the
    key and in front of the value is dropped, and so is white space that
    starts with a line terminator after the value (a carriage return); any
    other white space at the end of the value is kept as part of it. *)
Theorem parseLine_assignment (env : Env)
    (ws1 key ws2 ws3 value trail : string) :
  allChars isWhitespace ws1 = true ->
  allChars isKeyChar key = true -> key <> "" ->
  allChars isWhitespace ws2 = true ->
  allChars isWhitespace ws3 = true ->
  headOutside isWhitespace (value ++ trail) = true ->
  allChars isDot value = true ->
  allChars isWhitespace trail = true -> headOutside isDot trail = true ->
  parseLine env (ws1 ++ key ++ ws2 ++ "=" ++ ws3 ++ value ++ trail)
  = setProperty key (stripQuotes value) env.
Proof. apply parseLine_shape. Qed.

(** *** Quotes *)

Lemma endsWith_append (a t u : string) :
  String.length t = String.length u ->
  endsWith t (a ++ u) = String.eqb u t.
Proof.
  intros Hlen. unfold endsWith. rewrite length_append, Hlen.
  replace (String.length u <=? String.length a + String.length u)%nat
    with true by (symmetry; apply Nat.leb_le; lia).
  replace (String.length a + String.length u - String.length u)%nat
    with (String.length a) by lia.
  rewrite substring_skip_prefix, substring_whole. reflexivity.
Qed.

Lemma jsSubstring_inner (c d : ascii) (inner : string) :
  jsSubstring 1
    (Z.of_nat (String.length (String c (inner ++ String d ""))) - 1)
    (String c (inner ++ String d ""))
  = inner.
Proof.
  unfold jsSubstring.
  assert (Hlen : Z.of_nat (String.length (String c (inner ++ String d "")))
                 = Z.of_nat (String.length inner) + 2).
  { cbn [String.length]. rewrite length_append. cbn [String.length]. lia. }
  rewrite Hlen.
  replace (Z.max 0 (Z.min 1 (Z.of_nat (String.length inner) + 2)))
    with 1 by lia.
  replace (Z.max 0 (Z.min (Z.of_nat (String.length inner) + 2 - 1)
                          (Z.of_nat (String.length inner) + 2)))
    with (Z.of_nat (String.length inner) + 1) by lia.
  replace (Z.min 1 (Z.of_nat (String.length inner) + 1)) with 1 by lia.
  replace (Z.max 1 (Z.of_nat (String.length inner) + 1))
    with (Z.of_nat (String.length inner) + 1) by lia.
  replace (Z.of_nat (String.length inner) + 1 - 1)
    with (Z.of_nat (String.length inner)) by lia.
  rewrite Nat2Z.id. change (Z.to_nat 1) with 1%nat.
  cbn [substring]. apply substring_whole_prefix.
Qed.

(** X10. The clean-up of quotes removes one pair of double quotes, or one
    pair of single quotes, around a value and nothing else: a value that is
    a single quote character stays as it is, and so does a value that
    begins with one kind of quote and ends with the other. *)
Theorem stripQuotes_cases (inner : string) :
  stripQuotes (doubleQuote ++ inner ++ doubleQuote) = inner
  /\ stripQuotes (singleQuote ++ inner ++ singleQuote) = inner
  /\ stripQuotes doubleQuote = doubleQuote
  /\ stripQuotes singleQuote = singleQuote
  /\ stripQuotes (doubleQuote ++ inner ++ singleQuote)
     = doubleQuote ++ inner ++ singleQuote
  /\ stripQuotes (singleQuote ++ inner ++ doubleQuote)
     = singleQuote ++ inner ++ doubleQuote.
Proof.
  assert (Hd : forall q, startsWith doubleQuote (doubleQuote ++ q) = true)
    by (intros q; destruct q; reflexivity).
  assert (Hs : forall q, startsWith singleQuote (singleQuote ++ q) = true)
    by (intros q; destruct q; reflexivity).
  assert (Hsd : forall q, startsWith singleQuote (doubleQuote ++ q) = false)
    by reflexivity.
  assert (Hds : forall q, startsWith doubleQuote (singleQuote ++ q) = false)
    by reflexivity.
  unfold stripQuotes.
  rewrite !Hd, !Hs, !Hsd, !Hds.
  rewrite <- !append_assoc.
  rewrite !endsWith_append by reflexivity.
  rewrite !append_assoc.
  repeat split; try reflexivity.
  - apply (jsSubstring_inner (ascii_of_nat 34) (ascii_of_nat 34) inner).
  - apply (jsSubstring_inner (ascii_of_nat 39) (ascii_of_nat 39) inner).
Qed.

(** *** Lines that assign nothing *)

Lemma starK_none {R : Type} (p : ascii -> bool) (s : string)
    (k : string -> option R) :
  (forall s', allChars notEquals s' = true -> k s' = None) ->
  allChars notEquals s = true -> starK p s k = None.
Proof.
  intros Hk. induction s as [|c s IH]; intros Hs; simpl.
  - apply Hk. reflexivity.
  - pose proof Hs as Hs'. simpl in Hs'. apply andb_true_iff in Hs'.
    destruct Hs' as [_ Htail].
    destruct (p c); [rewrite (IH Htail)|]; apply Hk; exact Hs.
Qed.

(** No part of an expression can get across a string without an equals
    sign to a continuation that needs one. *)
Lemma run_none (r : Regex) :
  forall (s : string) (caps : Captures)
         (k : string -> Captures -> option Captures),
    (forall s' caps', allChars notEquals s' = true -> k s' caps' = None) ->
    allChars notEquals s = true -> run r s caps k = None.
Proof.
  induction r as [c | p | p | r1 IH1 r2 IH2 | n r IH | r IH];
    intros s caps k Hk Hs; cbn [run].
  - destruct s as [|c' s]; [reflexivity|].
    simpl in Hs. apply andb_true_iff in Hs. destruct Hs as [_ Hs].
    destruct (Ascii.eqb c c'); [apply Hk; exact Hs | reflexivity].
  - apply starK_none; auto.
  - destruct s as [|c' s]; [reflexivity|].
    simpl in Hs. apply andb_true_iff in Hs. destruct Hs as [_ Hs].
    destruct (p c'); [apply starK_none; auto | reflexivity].
  - apply IH1; auto.
  - apply IH; auto.
  - rewrite IH; auto.
    intros s' caps' Hs'.
    destruct (String.length s' =? String.length s)%nat; auto.
Qed.

Lemma matchWhole_without_equals (line : string) :
  allChars notEquals line = true -> matchWhole envLine line = None.
Proof.
  intros Hline. unfold matchWhole, envLine. cbn [run].
  apply starK_none; [|exact Hline].
  intros s1 H1. destruct s1 as [|c1 s1]; [reflexivity|].
  simpl in H1. apply andb_true_iff in H1. destruct H1 as [_ H1].
  destruct (isKeyChar c1); [|reflexivity].
  apply starK_none; [|exact H1].
  intros s2 H2. apply starK_none; [|exact H2].
  intros s3 H3. destruct s3 as [|c3 s3]; [reflexivity|].
  simpl in H3. apply andb_true_iff in H3. destruct H3 as [Hc3 _].
  unfold notEquals, isEquals in Hc3. apply negb_true_iff in Hc3.
  rewrite Ascii.eqb_sym in Hc3. rewrite Hc3. reflexivity.
Qed.

(** X11. A line without an equals sign assigns nothing. *)
Theorem parseLine_without_equals (env : Env) (line : string) :
  allChars notEquals line = true -> parseLine env line = env.
Proof.
  intros H. unfold parseLine.
  rewrite (matchWhole_without_equals line H).
  destruct (negb (truthyString line) || startsWith "#" line); reflexivity.
Qed.

(** *** The object built by the loop *)

Lemma getProperty_replace_same (key value : string) (env : Env) :
  getProperty key (replaceProperty key value env) = Some value.
Proof.
  induction env as [|[k v] env IH]; simpl.
  - rewrite String.eqb_refl. reflexivity.
  - destruct (String.eqb key k) eqn:E; simpl; rewrite E; auto.
Qed.

Lemma getProperty_replace_other (key other value : string) (env : Env) :
  other <> key ->
  getProperty other (replaceProperty key value env) = getProperty other env.
Proof.
  intros Hne. apply String.eqb_neq in Hne.
  induction env as [|[k v] env IH]; simpl.
  - rewrite Hne. reflexivity.
  - destruct (String.eqb key k) eqn:E; simpl.
    + apply String.eqb_eq in E. subst k. rewrite Hne. reflexivity.
    + rewrite IH. reflexivity.
Qed.

(** *** Lines and their text *)

Lemma split_no_separator (sep : ascii) (s : string) :
  allChars (fun c => negb (Ascii.eqb c sep)) s = true -> split sep s = [s].
Proof.
  induction s as [|c s IH]; simpl; [reflexivity|].
  intros H. apply andb_true_iff in H. destruct H as [Hc Hs].
  apply negb_true_iff in Hc. rewrite Hc, (IH Hs). reflexivity.
Qed.

Lemma split_first_line (sep : ascii) (a b : string) :
  allChars (fun c => negb (Ascii.eqb c sep)) a = true ->
  split sep (a ++ String sep b) = a :: split sep b.
Proof.
  induction a as [|c a IH]; simpl.
  - intros _. rewrite Ascii.eqb_refl. reflexivity.
  - intros H. apply andb_true_iff in H. destruct H as [Hc Ha].
    apply negb_true_iff in Hc. rewrite Hc, (IH Ha). reflexivity.
Qed.

(** Splitting the text of a list of lines at the line feeds gives the
    lines back. *)
Lemma split_joinLines (lines : list string) :
  lines <> [] ->
  Forall (fun l => allChars notLineFeed l = true) lines ->
  split lineFeed (joinLines lines) = lines.
Proof.
  intros Hne Hall. induction Hall as [|l rest Hl Hrest IH]; [congruence|].
  destruct rest as [|l' rest].
  - simpl. apply split_no_separator. exact Hl.
  - change (joinLines (l :: l' :: rest))
      with (l ++ String lineFeed (joinLines (l' :: rest))).
    rewrite split_first_line by exact Hl.
    rewrite IH by discriminate. reflexivity.
Qed.

Lemma fold_parseLine_filter (lines : list string) (env : Env) :
  fold_left parseLine lines env
  = fold_left parseLine (filter (fun l => negb (isSkipped l)) lines) env.
Proof.
  revert env. induction lines as [|l lines IH]; intros env; [reflexivity|].
  simpl. destruct (isSkipped l) eqn:E; simpl.
  - unfold parseLine. unfold isSkipped in E. rewrite E. apply IH.
  - apply IH.
Qed.

(** X12. The lines of a file are taken in order, and empty lines and
    lines that start with [#] count for nothing: parsing the text of a list
    of lines is running the loop over the lines that are left when those
    are taken out. *)
Theorem parseEnv_skips_comments (lines : list string) :
  Forall (fun l => allChars notLineFeed l = true) lines ->
  parseEnv (joinLines lines)
  = fold_left parseLine (filter (fun l => negb (isSkipped l)) lines) [].
Proof.
  intros Hall. unfold parseEnv. destruct lines as [|l lines].
  - reflexivity.
  - rewrite split_joinLines by (auto; discriminate).
    apply fold_parseLine_filter.
Qed.

Lemma dot_notLineFeed (s : string) :
  allChars isDot s = true -> allChars notLineFeed s = true.
Proof.
  induction s as [|c s IH]; simpl; [reflexivity|].
  intros H. apply andb_true_iff in H. destruct H as [Hc Hs].
  rewrite (IH Hs), andb_true_r.
  destruct c as [[] [] [] [] [] [] [] []]; vm_compute in Hc |- *;
    congruence.
Qed.

Lemma fold_left_last {A B : Type} (f : A -> B -> A) (l : list B) (x : B)
    (a : A) :
  fold_left f (l ++ [x]) a = f (fold_left f l a) x.
Proof. rewrite fold_left_app. reflexivity. Qed.

(** The text of some lines followed by a line [key=value]. *)
Lemma last_line_wins (before : list string)
    (key value other : string) :
  Forall (fun l => allChars notLineFeed l = true) before ->
  allChars isKeyChar key = true -> key <> "" -> key <> "__proto__" ->
  allChars isDot value = true -> headOutside isWhitespace value = true ->
  other <> key ->
  getProperty key (parseEnv (joinLines (before ++ [key ++ "=" ++ value])))
  = Some (stripQuotes value)
  /\ getProperty other
       (parseEnv (joinLines (before ++ [key ++ "=" ++ value])))
     = getProperty other (fold_left parseLine before []).
Proof.
  intros Hbefore Hkey Hne Hproto Hdot Hhead Hother.
  assert (Hlf := dot_notLineFeed value Hdot).
  assert (Hline : allChars notLineFeed (key ++ "=" ++ value) = true).
  { clear - Hkey Hlf. induction key as [|c key IH]; simpl in *.
    - exact Hlf.
    - apply andb_true_iff in Hkey. destruct Hkey as [Hc Hkey].
      rewrite (IH Hkey), andb_true_r.
      destruct c as [[] [] [] [] [] [] [] []]; vm_compute in Hc |- *;
        congruence. }
  unfold parseEnv.
  rewrite split_joinLines.
  2: { destruct before; discriminate. }
  2: { apply Forall_app. split; [exact Hbefore | constructor; auto]. }
  rewrite fold_left_last.
  pose proof (parseLine_shape (fold_left parseLine before [])
                "" key "" "" value "" eq_refl Hkey Hne eq_refl eq_refl) as H.
  rewrite append_empty_r in H. cbn [append] in H.
  change (key ++ String "=" value) with (key ++ "=" ++ value) in H.
  rewrite H by auto.
  unfold setProperty.
  apply String.eqb_neq in Hproto. rewrite Hproto.
  split.
  - apply getProperty_replace_same.
  - apply getProperty_replace_other. exact Hother.
Qed.

(** X13. The last assignment of a key wins: whatever the lines before it
    assigned, after a last line [key=value] the key has the value of that
    line (quotes removed) and every other key has what it had. *)
Theorem parseEnv_last_assignment (before : list string)
    (key value other : string) :
  Forall (fun l => allChars notLineFeed l = true) before ->
  allChars isKeyChar key = true -> key <> "" -> key <> "__proto__" ->
  allChars isDot value = true -> headOutside isWhitespace value = true ->
  other <> key ->
  getProperty key (parseEnv (joinLines (before ++ [key ++ "=" ++ value])))
  = Some (stripQuotes value)
  /\ getProperty other
       (parseEnv (joinLines (before ++ [key ++ "=" ++ value])))
     = getProperty other (fold_left parseLine before []).
Proof. apply last_line_wins. Qed.

End EnvLoaderProperties.

Section ConfigProperties.

Import EnvLoader Config.

Lemma truthyString_false (s : string) : truthyString s = false -> s = "".
Proof.
  unfold truthyString. destruct (String.eqb_spec s ""); simpl; congruence.
Qed.

Lemma truthyString_true (s : string) : s <> "" -> truthyString s = true.
Proof.
  unfold truthyString. destruct (String.eqb_spec s ""); simpl; congruence.
Qed.

(** X14. [getEnv] takes the first non-empty value in the order
    [process.env], [window._env], default; an empty value counts as none.
    With a non-empty default the result is never empty. *)
Theorem getEnv_precedence (processEnv windowEnv : option Env)
    (key defaultValue : string) :
  (forall v, lookupIn processEnv key = Some v -> v <> "" ->
             getEnv processEnv windowEnv key defaultValue = v)
  /\ (forall v,
        lookupIn processEnv key = None \/ lookupIn processEnv key = Some "" ->
        lookupIn windowEnv key = Some v -> v <> "" ->
        getEnv processEnv windowEnv key defaultValue = v)
  /\ (lookupIn processEnv key = None \/ lookupIn processEnv key = Some "" ->
      lookupIn windowEnv key = None \/ lookupIn windowEnv key = Some "" ->
      getEnv processEnv windowEnv key defaultValue = defaultValue)
  /\ (defaultValue <> "" ->
      getEnv processEnv windowEnv key defaultValue <> "").
Proof.
  unfold getEnv. repeat split.
  - intros v -> Hv. now rewrite (truthyString_true v Hv).
  - intros v [-> | ->] -> Hv; simpl; now rewrite (truthyString_true v Hv).
  - intros [-> | ->] [-> | ->]; reflexivity.
  - intros Hd.
    destruct (lookupIn processEnv key) as [v|];
      [destruct (truthyString v) eqn:Ev;
       [apply truthyString_spec; exact Ev|]|];
      (destruct (lookupIn windowEnv key) as [v'|];
       [destruct (truthyString v') eqn:Ev';
        [apply truthyString_spec; exact Ev' | exact Hd] | exact Hd]).
Qed.



End ConfigProperties.

(** * Further properties of the component *)

Section ComponentProperties.

Import Json App.

Variable typeErrorMessage : string -> string.
Variable parseInt10 : JValue -> JNumber.
Variable photos_endpoint : string.
Variable upload_endpoint : string.

Local Abbreviation fetchPhotos :=
  (App.fetchPhotos typeErrorMessage parseInt10 photos_endpoint).
Local Abbreviation photoOfItem :=
  (App.photoOfItem typeErrorMessage parseInt10).
Local Abbreviation uploadFile := (App.uploadFile upload_endpoint).
Local Abbreviation monitorTick :=
  (App.monitorTick typeErrorMessage parseInt10 photos_endpoint).
Local Abbreviation monitorRun :=
  (App.monitorRun typeErrorMessage parseInt10 photos_endpoint).
Local Abbreviation onAuthStatusChanged :=
  (App.onAuthStatusChanged typeErrorMessage parseInt10 photos_endpoint).
Local Abbreviation deliver :=
  (App.deliver typeErrorMessage parseInt10 photos_endpoint).

(** *** The listing *)

Lemma photoOfItem_nullish (item : JValue) :
  nullish item = true ->
  photoOfItem item = Throw (typeErrorMessage "ThumbnailURL").
Proof. destruct item; simpl; try discriminate; reflexivity. Qed.

Lemma mapR_photoOfItem_throw (items : list JValue) :
  Exists (fun item => nullish item = true) items ->
  mapR photoOfItem items = Throw (typeErrorMessage "ThumbnailURL").
Proof.
  induction items as [|item items IH]; intros H.
  - inversion H.
  - cbn [mapR]. destruct (nullish item) eqn:E.
    + rewrite (photoOfItem_nullish item E). reflexivity.
    + destruct (photoOfItem_ok typeErrorMessage parseInt10 item E)
        as (p & -> & _).
      cbn [bindR]. rewrite IH; [reflexivity|].
      inversion H; subst; [congruence | assumption].
Qed.


Lemma fetchPhotos_always (r : FetchOutcome) (w : World) :
  requests (fetchPhotos r w) = (requests w ++ [Get photos_endpoint])%list
  /\ timers (fetchPhotos r w) = timers w
  /\ loading (app (fetchPhotos r w)) = false.
Proof.
  unfold App.fetchPhotos.
  destruct (fetchPhotosTry typeErrorMessage parseInt10 r
              (app (send (Get photos_endpoint)
                      (update (set_error None)
                         (update (set_loading true) w)))));
    repeat split.
Qed.

(** A body that is a listing with a null entry. *)
Lemma fetchPhotos_null_item (data : JValue) (items : list JValue)
    (w : World) :
  path data ["Items"] = JArr items ->
  Exists (fun item => nullish item = true) items ->
  photos (app (fetchPhotos (Response true (Json data)) w)) = photos (app w)
  /\ error (app (fetchPhotos (Response true (Json data)) w))
     = Some ("Failed to fetch photos: " ++ typeErrorMessage "ThumbnailURL")
  /\ loading (app (fetchPhotos (Response true (Json data)) w)) = false.
Proof.
  intros Hitems Hex. unfold App.fetchPhotos, App.fetchPhotosTry.
  assert (Ht : truthy data = true).
  { destruct data; simpl in Hitems; try discriminate. reflexivity. }
  rewrite Ht.
  rewrite (getProp_path typeErrorMessage data "Items")
    by (destruct data; simpl in *; congruence).
  rewrite Hitems. cbn [bindR].
  rewrite (mapR_photoOfItem_throw items Hex). repeat split.
Qed.


(** X17. One null entry in [Items] makes the whole listing fail: the
    photos stay as they were, whatever the other entries are, and the error
    reports the failed read of [ThumbnailURL]. *)
Theorem null_item_fails_listing (data : JValue) (items : list JValue)
    (w : World) :
  path data ["Items"] = JArr items ->
  Exists (fun item => nullish item = true) items ->
  photos (app (fetchPhotos (Response true (Json data)) w)) = photos (app w)
  /\ error (app (fetchPhotos (Response true (Json data)) w))
     = Some ("Failed to fetch photos: " ++ typeErrorMessage "ThumbnailURL")
  /\ loading (app (fetchPhotos (Response true (Json data)) w)) = false.
Proof. apply fetchPhotos_null_item. Qed.

(** *** Notifications of the session store *)

Lemma fetchPhotos_auth_fields (r : FetchOutcome) (w : World) :
  isAuthenticated (app (fetchPhotos r w)) = isAuthenticated (app w)
  /\ username (app (fetchPhotos r w)) = username (app w)
  /\ authLoading (app (fetchPhotos r w)) = authLoading (app w).
Proof.
  unfold App.fetchPhotos, App.fetchPhotosTry.
  destruct r as [message | [|] [message | data]]; simpl; auto.
  destruct (if truthy data then getProp typeErrorMessage data "Items"
            else Ok JUndefined) as [items | message]; simpl; auto.
  destruct items; simpl; auto.
  destruct (mapR photoOfItem elems); simpl; auto.
Qed.

(** One notification. *)
Lemma notification_effects (status : Auth.AuthStatus) (r : FetchOutcome)
    (w : World) :
  isAuthenticated (app (onAuthStatusChanged status r w))
  = Auth.isAuthenticated status
  /\ username (app (onAuthStatusChanged status r w)) = Auth.username status
  /\ authLoading (app (onAuthStatusChanged status r w)) = Auth.loading status
  /\ (Auth.isAuthenticated status = true ->
      onAuthStatusChanged status r w
      = fetchPhotos r (mirrorAuth status w))
  /\ (Auth.isAuthenticated status = false ->
      requests (onAuthStatusChanged status r w) = requests w
      /\ (Auth.loading status = false ->
          photos (app (onAuthStatusChanged status r w)) = [])
      /\ (Auth.loading status = true ->
          photos (app (onAuthStatusChanged status r w)) = photos (app w))).
Proof.
  unfold App.onAuthStatusChanged.
  change (isAuthenticated (app (mirrorAuth status w)))
    with (Auth.isAuthenticated status).
  change (authLoading (app (mirrorAuth status w)))
    with (Auth.loading status).
  destruct (Auth.isAuthenticated status) eqn:Ea.
  - destruct (fetchPhotos_auth_fields r (mirrorAuth status w))
      as (H1 & H2 & H3).
    rewrite H1, H2, H3. simpl. rewrite Ea.
    repeat split; auto; discriminate.
  - destruct (Auth.loading status) eqn:El; simpl; rewrite ?Ea, ?El;
      repeat split; auto; discriminate.
Qed.

(** X18. A notification that shows a session that is not authenticated
    never issues a request; it empties the photos when the session is not
    loading either, and leaves them alone while it is loading. A
    notification that shows an authenticated session issues exactly one
    listing request. In every case the component then shows the three
    session fields of the notification. *)
Theorem notification_fetches_or_clears (status : Auth.AuthStatus)
    (r : FetchOutcome) (w : World) :
  isAuthenticated (app (onAuthStatusChanged status r w))
  = Auth.isAuthenticated status
  /\ username (app (onAuthStatusChanged status r w)) = Auth.username status
  /\ authLoading (app (onAuthStatusChanged status r w)) = Auth.loading status
  /\ (Auth.isAuthenticated status = true ->
      requests (onAuthStatusChanged status r w)
      = (requests w ++ [Get photos_endpoint])%list)
  /\ (Auth.isAuthenticated status = false ->
      requests (onAuthStatusChanged status r w) = requests w
      /\ (Auth.loading status = false ->
          photos (app (onAuthStatusChanged status r w)) = [])
      /\ (Auth.loading status = true ->
          photos (app (onAuthStatusChanged status r w)) = photos (app w))).
Proof.
  destruct (notification_effects status r w) as (H1 & H2 & H3 & H4 & H5).
  repeat split; auto; try (apply H5; assumption).
  intros Ha. rewrite (H4 Ha).
  destruct (fetchPhotos_always r (mirrorAuth status w)) as (Hr & _).
  exact Hr.
Qed.

(** X19. A logout empties the gallery: [logoutUser] notifies once, and the
    component that receives the notification shows no photos and no user,
    without issuing a request. *)
Theorem logout_empties_gallery (window : Auth.Window) (r : FetchOutcome)
    (w : World) :
  Auth.dispatched (Auth.logoutUser window)
  = (Auth.dispatched window ++ [Auth.emptyAuthStatus])%list
  /\ photos (app (deliver [(Auth.emptyAuthStatus, r)] w)) = []
  /\ isAuthenticated (app (deliver [(Auth.emptyAuthStatus, r)] w)) = false
  /\ username (app (deliver [(Auth.emptyAuthStatus, r)] w)) = ""
  /\ requests (deliver [(Auth.emptyAuthStatus, r)] w) = requests w.
Proof. repeat split. Qed.

Lemma deliver_twice_authenticated (status : Auth.AuthStatus)
    (r1 r2 : FetchOutcome) (w : World) :
  Auth.isAuthenticated status = true ->
  deliver [(status, r1); (status, r2)] w
  = fetchPhotos r2 (mirrorAuth status (fetchPhotos r1 (mirrorAuth status w))).
Proof.
  intros Ha. unfold App.deliver. cbn [fold_left fst snd].
  destruct (notification_effects status r1 w) as (_ & _ & _ & H1 & _).
  rewrite (H1 Ha).
  destruct (notification_effects status r2
              (fetchPhotos r1 (mirrorAuth status w))) as (_ & _ & _ & H2 & _).
  rewrite (H2 Ha). reflexivity.
Qed.

(** X20. Signing in loads the gallery, twice: the check that exchanges a
    code notifies two times with the authenticated session, and the
    component that receives the two notifications issues two listing
    requests and shows the user as signed in. *)
Theorem exchange_loads_gallery
    (decodePayload : string -> Result Auth.Payload) (now : Z)
    (authCode : string) (window : Auth.Window) (r1 r2 : FetchOutcome)
    (w : World) :
  Auth.urlCode window = Some authCode -> truthyString authCode = true ->
  let session :=
    Auth.authStatus (Auth.checkAuthFromHash decodePayload now window) in
  Auth.dispatched (Auth.checkAuthFromHash decodePayload now window)
  = (Auth.dispatched window ++ [session; session])%list
  /\ requests (deliver [(session, r1); (session, r2)] w)
     = (requests w ++ [Get photos_endpoint; Get photos_endpoint])%list
  /\ isAuthenticated (app (deliver [(session, r1); (session, r2)] w)) = true
  /\ username (app (deliver [(session, r1); (session, r2)] w))
     = "Authenticated User"
  /\ authLoading (app (deliver [(session, r1); (session, r2)] w)) = false
  /\ loading (app (deliver [(session, r1); (session, r2)] w)) = false.
Proof.
  intros Hc Ht session.
  assert (Hs : session
               = Auth.mkAuthStatus true "Authenticated User"
                   (Some ("id-" ++ authCode))
                   (Auth.ExpiresAt (now + Auth.secondsToMs 3600)) false).
  { unfold session, Auth.checkAuthFromHash, Auth.exchangeOrRestore.
    destruct window as [a st c d]. simpl in *. subst c. rewrite Ht.
    reflexivity. }
  split.
  - unfold session, Auth.checkAuthFromHash, Auth.exchangeOrRestore.
    destruct window as [a st c d]. simpl in *. subst c. rewrite Ht.
    simpl. rewrite <- app_assoc. reflexivity.
  - rewrite (deliver_twice_authenticated session r1 r2 w)
      by (rewrite Hs; reflexivity).
    set (w1 := fetchPhotos r1 (mirrorAuth session w)).
    destruct (fetchPhotos_always r2 (mirrorAuth session w1))
      as (Hr2 & _ & Hl2).
    destruct (fetchPhotos_always r1 (mirrorAuth session w)) as (Hr1 & _).
    destruct (fetchPhotos_auth_fields r2 (mirrorAuth session w1))
      as (Ha & Hu & Hal).
    rewrite Hr2, Ha, Hu, Hal, Hl2.
    change (requests (mirrorAuth session w1)) with (requests w1).
    unfold w1 at 1. rewrite Hr1.
    change (requests (mirrorAuth session w)) with (requests w).
    rewrite <- app_assoc. rewrite Hs. simpl.
    repeat split.
Qed.

(** *** The upload *)

Lemma progress_fold (progress : list ProgressEvent) (w : World) :
  fold_left applyProgress progress w
  = update (set_uploadProgress
              (lastPercent progress (uploadProgress (app w)))) w.
Proof.
  revert w. induction progress as [|e progress IH]; intros w.
  - destruct w as [[] ? ?]; reflexivity.
  - simpl. rewrite IH. destruct e; destruct w as [[] ? ?]; reflexivity.
Qed.

(** The world right after the transfer of a selected file. *)
Lemma uploadToS3_effects (url : string) (file : File)
    (authToken : option string) (x : XhrOutcome) (w : World) :
  snd (uploadToS3 url file authToken x w)
  = update (set_uploadProgress
              (lastPercent (progressOf x) (uploadProgress (app w))))
      (send (Put url
               (if truthyString (type file) then type file
                else "application/octet-stream")
               (match authToken with
                | Some t => if truthyString t then Some ("Bearer " ++ t)
                            else None
                | None => None
                end)
               file) w)
  /\ (transferred x = true -> fst (uploadToS3 url file authToken x w) = Ok tt)
  /\ (transferred x = false ->
      exists message,
        fst (uploadToS3 url file authToken x w) = Throw message).
Proof.
  unfold uploadToS3. destruct x as [progress status statusText | progress];
    cbn [progressOf transferred]; rewrite progress_fold.
  - change ((200 <=? status) && (status <? 300))
      with (isSuccessStatus status).
    destruct (isSuccessStatus status); simpl; repeat split;
      try discriminate; eauto.
  - simpl. repeat split; try discriminate; eauto.
Qed.

(** X21. With a file selected, an upload issues exactly one request,
    whatever becomes of it: a PUT of the file to the upload endpoint
    followed by the time stamp, a dash and the name of the file, with the
    type of the file as content type ([application/octet-stream] when the
    file has none) and with a bearer authorization exactly when the session
    has a non-empty token. *)
Theorem upload_request (now : Z) (authToken : option string) (x : XhrOutcome)
    (file : File) (w : World) :
  fileToUpload (app w) = Some file ->
  requests (fst (uploadFile now authToken x w))
  = List.app (requests w)
      [Put (upload_endpoint ++ decimal now ++ "-" ++ name file)
           (if truthyString (type file) then type file
            else "application/octet-stream")
           (if truthyField authToken
            then option_map (fun t => "Bearer " ++ t) authToken
            else None)
           file].
Proof.
  intros Hf. unfold App.uploadFile. rewrite Hf.
  match goal with
  | |- context [uploadToS3 ?u ?f ?a ?x ?w0] =>
      destruct (uploadToS3_effects u f a x w0) as (Hw & _);
      destruct (uploadToS3 u f a x w0) as [[u0|message] w1]
  end; simpl in Hw; subst w1; simpl;
    destruct authToken as [t|]; simpl; try destruct (truthyString t);
    reflexivity.
Qed.

(** X22. With a file selected, an upload ends in exactly one of two ways,
    and always with [uploading = false] and the progress of the last
    computable progress event (0 when there was none). When the transfer
    ended with a status from 200 to 299: success is flagged, no error is
    set, the file is deselected and one monitor is started on the current
    number of photos. Otherwise: an error is set, success is not flagged,
    the file stays selected and no monitor is started. *)
Theorem upload_outcomes (now : Z) (authToken : option string) (x : XhrOutcome)
    (file : File) (w : World) :
  fileToUpload (app w) = Some file ->
  uploading (app (fst (uploadFile now authToken x w))) = false
  /\ uploadProgress (app (fst (uploadFile now authToken x w)))
     = lastPercent (progressOf x) 0
  /\ (transferred x = true ->
      uploadSuccess (app (fst (uploadFile now authToken x w))) = true
      /\ uploadError (app (fst (uploadFile now authToken x w))) = None
      /\ fileToUpload (app (fst (uploadFile now authToken x w))) = None
      /\ processingImage (app (fst (uploadFile now authToken x w))) = true
      /\ processingProgress (app (fst (uploadFile now authToken x w))) = 0
      /\ snd (uploadFile now authToken x w)
         = Some (mkMonitor (length (photos (app w))) 0 true))
  /\ (transferred x = false ->
      uploadSuccess (app (fst (uploadFile now authToken x w))) = false
      /\ uploadError (app (fst (uploadFile now authToken x w))) <> None
      /\ fileToUpload (app (fst (uploadFile now authToken x w))) = Some file
      /\ processingImage (app (fst (uploadFile now authToken x w)))
         = processingImage (app w)
      /\ snd (uploadFile now authToken x w) = None).
Proof.
  intros Hf. unfold App.uploadFile. rewrite Hf.
  match goal with
  | |- context [uploadToS3 ?u ?f ?a ?x ?w0] =>
      destruct (uploadToS3_effects u f a x w0) as (Hw & Hok & Hfail);
      destruct (uploadToS3 u f a x w0) as [[u0|message] w1]
  end; simpl in Hw; subst w1; simpl.
  all: split; [reflexivity|]; split; [reflexivity|]; split; intros Hx;
    first [ solve [destruct (Hfail Hx) as [m Hm]; discriminate Hm]
          | solve [specialize (Hok Hx); discriminate Hok]
          | solve [repeat split; auto; try discriminate;
                   rewrite ?Hf; auto] ].
Qed.

(** *** The modal and the timeouts *)

(** X23. Opening a photo while a close is still pending does not cancel
    the close: once the 300 ms of the close have passed, the modal is shown
    with no photo selected. *)
Theorem reopen_during_close (now t : Z) (photo : Photo) (w : World) :
  now + 300 <= t ->
  showModal (app (advanceTo t (openPhotoModal photo (closePhotoModal now w))))
  = true
  /\ selectedPhoto
       (app (advanceTo t (openPhotoModal photo (closePhotoModal now w))))
     = None
  /\ modalLoading
       (app (advanceTo t (openPhotoModal photo (closePhotoModal now w))))
     = false.
Proof using Type.
  intros Hle. unfold advanceTo. split.
  - rewrite runTimers_showModal. reflexivity.
  - apply runTimers_clears; [apply Nat.le_refl|].
    left. exists (now + 300). split; [|exact Hle].
    simpl. apply in_or_app. right. left. reflexivity.
Qed.

(** Without a [ClearModal] due, the timeouts leave the selection alone. *)
Lemma runTimers_keeps_selection (fuel : nat) (t : Z) (w : World) :
  (forall due, In (due, ClearModal) (timers w) -> t < due) ->
  selectedPhoto (app (runTimers fuel t w)) = selectedPhoto (app w)
  /\ modalLoading (app (runTimers fuel t w)) = modalLoading (app w).
Proof using Type.
  revert w. induction fuel as [|fuel IH]; intros w Hno; [split; reflexivity|].
  simpl. destruct (nextTimer (timers w)) as [[[due cb] rest]|] eqn:E;
    [|split; reflexivity].
  destruct (nextTimer_Some _ _ _ E) as (Hin & _ & _).
  destruct (due <=? t) eqn:D; [|split; reflexivity].
  apply Z.leb_le in D.
  assert (Hrest : forall d, In (d, ClearModal) rest -> t < d).
  { intros d Hd. apply Hno. apply Hin. right. exact Hd. }
  destruct cb.
  - exfalso. assert (t < due) by (apply Hno; apply Hin; left; reflexivity).
    lia.
  - destruct (IH (runCallback due ProcessingDone (set_timers rest w)))
      as [H1 H2]; [|rewrite H1, H2; split; reflexivity].
    intros d Hd. simpl in Hd. apply in_app_or in Hd.
    destruct Hd as [Hd | [Hd | []]]; [auto | discriminate Hd].
  - destruct (IH (runCallback due ResetUploadSuccess (set_timers rest w)))
      as [H1 H2]; [|rewrite H1, H2; split; reflexivity].
    intros d Hd. simpl in Hd. auto.
Qed.

(** X24. Closing the modal hides it at once but keeps the photo: until the
    300 ms have passed, and with no earlier close still pending, the
    selected photo and the loading flag of the modal are unchanged. *)
Theorem close_defers_clearing (now t : Z) (w : World) :
  t < now + 300 ->
  (forall due, In (due, ClearModal) (timers w) -> t < due) ->
  showModal (app (advanceTo t (closePhotoModal now w))) = false
  /\ selectedPhoto (app (advanceTo t (closePhotoModal now w)))
     = selectedPhoto (app w)
  /\ modalLoading (app (advanceTo t (closePhotoModal now w)))
     = modalLoading (app w).
Proof using Type.
  intros Hlt Hno. unfold advanceTo. split.
  - rewrite runTimers_showModal. reflexivity.
  - apply (runTimers_keeps_selection _ t (closePhotoModal now w)).
    intros due Hd. simpl in Hd. apply in_app_or in Hd.
    destruct Hd as [Hd | [Hd | []]]; [auto|].
    injection Hd as <-. exact Hlt.
Qed.

Lemma fuel_after_callback (fuel : nat) (due : Z) (cb : Callback)
    (rest : list (Z * Callback)) (w : World) :
  (weight (due, cb) + totalWeight rest <= S fuel)%nat ->
  (totalWeight (timers (runCallback due cb (set_timers rest w))) <= fuel)%nat.
Proof using Type.
  destruct cb; simpl; rewrite ?totalWeight_app;
    try change (totalWeight [(due + 5000, ResetUploadSuccess)]) with 1%nat;
    unfold weight; simpl; lia.
Qed.

(** Once every timeout due by [t] has run, a pending [ProcessingDone] due
    by [t] has hidden the processing display. *)
Lemma runTimers_processing (fuel : nat) (t : Z) (w : World) :
  (totalWeight (timers w) <= fuel)%nat ->
  (exists due, In (due, ProcessingDone) (timers w) /\ due <= t)
  \/ processingImage (app w) = false ->
  processingImage (app (runTimers fuel t w)) = false.
Proof using Type.
  revert w. induction fuel as [|fuel IH]; intros w Hfuel HP.
  - simpl. destruct HP as [(due & Hin & _)|HP]; [|exact HP].
    destruct (timers w) as [|x ts]; [destruct Hin|].
    rewrite totalWeight_cons in Hfuel. pose proof (weight_pos x). lia.
  - simpl. destruct (nextTimer (timers w)) as [[[due cb] rest]|] eqn:E.
    + destruct (nextTimer_Some _ _ _ E) as (Hin & Hmin & Hw).
      destruct (due <=? t) eqn:D.
      * apply IH.
        -- apply fuel_after_callback. rewrite <- Hw. exact Hfuel.
        -- destruct cb; simpl; auto;
             (destruct HP as [(d & Hd & Hle)|HP]; [left|right; exact HP]);
             exists d; (split; [|exact Hle]);
             apply Hin in Hd; destruct Hd as [Hd|Hd];
             [discriminate | exact Hd | discriminate | exact Hd].
      * apply Z.leb_gt in D.
        destruct HP as [(d & Hd & Hle)|HP]; [|exact HP].
        specialize (Hmin _ Hd). simpl in Hmin. lia.
    + apply nextTimer_None in E.
      destruct HP as [(d & Hd & _)|HP]; [|exact HP].
      rewrite E in Hd. destruct Hd.
Qed.

(** ... and a [ProcessingDone] due 5000 ms before [t], or a
    [ResetUploadSuccess] due by [t], has taken the success flag down. *)
Lemma runTimers_success (fuel : nat) (t : Z) (w : World) :
  (totalWeight (timers w) <= fuel)%nat ->
  (exists due, In (due, ProcessingDone) (timers w) /\ due + 5000 <= t)
  \/ (exists due, In (due, ResetUploadSuccess) (timers w) /\ due <= t)
  \/ uploadSuccess (app w) = false ->
  uploadSuccess (app (runTimers fuel t w)) = false.
Proof using Type.
  revert w. induction fuel as [|fuel IH]; intros w Hfuel HP.
  - simpl.
    destruct (timers w) as [|x ts] eqn:Ets.
    + destruct HP as [(d & [] & _) | [(d & [] & _) | HP]]. exact HP.
    + rewrite totalWeight_cons in Hfuel. pose proof (weight_pos x). lia.
  - simpl. destruct (nextTimer (timers w)) as [[[due cb] rest]|] eqn:E.
    + destruct (nextTimer_Some _ _ _ E) as (Hin & Hmin & Hw).
      destruct (due <=? t) eqn:D.
      * apply IH.
        -- apply fuel_after_callback. rewrite <- Hw. exact Hfuel.
        -- destruct cb; simpl.
           ++ destruct HP as [(d & Hd & Hle) | [(d & Hd & Hle) | HP]].
              ** left. exists d. split; [|exact Hle].
                 apply Hin in Hd. destruct Hd as [Hd|Hd];
                   [discriminate | exact Hd].
              ** right. left. exists d. split; [|exact Hle].
                 apply Hin in Hd. destruct Hd as [Hd|Hd];
                   [discriminate | exact Hd].
              ** right. right. exact HP.
           ++ destruct HP as [(d & Hd & Hle) | [(d & Hd & Hle) | HP]].
              ** apply Hin in Hd. destruct Hd as [Hd|Hd].
                 --- injection Hd as ->. right. left. exists (due + 5000).
                     split; [|exact Hle]. apply in_or_app. right. left.
                     reflexivity.
                 --- left. exists d. split; [|exact Hle].
                     apply in_or_app. left. exact Hd.
              ** right. left. exists d. split; [|exact Hle].
                 apply in_or_app. left.
                 apply Hin in Hd. destruct Hd as [Hd|Hd];
                   [discriminate | exact Hd].
              ** right. right. exact HP.
           ++ right. right. reflexivity.
      * apply Z.leb_gt in D.
        destruct HP as [(d & Hd & Hle) | [(d & Hd & Hle) | HP]];
          [| |exact HP]; specialize (Hmin _ Hd); simpl in Hmin; lia.
    + apply nextTimer_None in E. rewrite E in HP.
      destruct HP as [(d & [] & _) | [(d & [] & _) | HP]]. exact HP.
Qed.

(** *** The processing monitor *)

(** What one tick of a running monitor does to the progress and to the
    timeouts. *)
Lemma monitorTick_steps (now : Z) (r : FetchOutcome) (m : Monitor)
    (w : World) :
  running m = true ->
  elapsed (fst (monitorTick now r (m, w))) = elapsed m + 10
  /\ initialPhotoCount (fst (monitorTick now r (m, w))) = initialPhotoCount m
  /\ photos (app (snd (monitorTick now r (m, w))))
     = photos (app (fetchPhotos r w))
  /\ (running (fst (monitorTick now r (m, w))) = true ->
      processingProgress (app (snd (monitorTick now r (m, w))))
      = Z.min (roundPercent (elapsed m + 10) totalExpectedTime) 95)
  /\ (running (fst (monitorTick now r (m, w))) = false ->
      processingProgress (app (snd (monitorTick now r (m, w)))) = 100
      /\ processingMessage (app (snd (monitorTick now r (m, w))))
         = "Image processing complete!"
      /\ In (now + 2000, ProcessingDone)
            (timers (snd (monitorTick now r (m, w)))))
  /\ (running (fst (monitorTick now r (m, w))) = false <->
      (initialPhotoCount m < length (photos (app (fetchPhotos r w))))%nat
      \/ totalExpectedTime + 10 <= elapsed m + 10).
Proof.
  intros Hrun. unfold App.monitorTick. rewrite Hrun.
  set (w1 := update (set_processingProgress
                       (Z.min (roundPercent (elapsed m + 10)
                                            totalExpectedTime) 95)) w).
  destruct (fetchPhotos_processing typeErrorMessage parseInt10
              photos_endpoint r w1) as [Hp _].
  assert (Hph : photos (app (fetchPhotos r w1))
                = photos (app (fetchPhotos r w))).
  { unfold w1. clear. unfold App.fetchPhotos, App.fetchPhotosTry.
    destruct r as [message | [|] [message | data]]; simpl; auto.
    destruct (if truthy data then getProp typeErrorMessage data "Items"
              else Ok JUndefined) as [items | message]; simpl; auto.
    destruct items; simpl; auto.
    destruct (mapR photoOfItem elems); simpl; auto. }
  rewrite <- Hph.
  remember (fetchPhotos r w1) as wf eqn:Hwf. clear Hwf Hph.
  destruct ((initialPhotoCount m <? length (photos (app wf)))%nat
            || (totalExpectedTime + 10 <=? elapsed m + 10)) eqn:C;
    cbn [fst snd elapsed initialPhotoCount running].
  - apply orb_true_iff in C. rewrite Nat.ltb_lt, Z.leb_le in C.
    repeat split; auto; try discriminate.
    simpl. apply in_or_app. right. left. reflexivity.
  - apply orb_false_iff in C. rewrite Nat.ltb_ge, Z.leb_gt in C.
    repeat split; auto; try discriminate.
    intros [H | H]; lia.
Qed.

(** X25. When a tick ends the monitoring at time [now], the processing
    display is hidden once 2000 ms have passed and the success flag is
    taken down once 7000 ms have passed, whatever other timeouts are
    pending. *)
Theorem processing_display_is_dismissed (now t : Z) (r : FetchOutcome)
    (m : Monitor) (w : World) :
  running m = true ->
  running (fst (monitorTick now r (m, w))) = false ->
  (now + 2000 <= t ->
   processingImage (app (advanceTo t (snd (monitorTick now r (m, w)))))
   = false)
  /\ (now + 7000 <= t ->
      uploadSuccess (app (advanceTo t (snd (monitorTick now r (m, w)))))
      = false).
Proof.
  intros Hrun Hstop.
  destruct (monitorTick_steps now r m w Hrun) as (_ & _ & _ & _ & Hdone & _).
  destruct (Hdone Hstop) as (_ & _ & Hin).
  unfold advanceTo. split; intros Ht.
  - apply runTimers_processing; [apply Nat.le_refl|].
    left. exists (now + 2000). split; [exact Hin | exact Ht].
  - apply runTimers_success; [apply Nat.le_refl|].
    left. exists (now + 2000). split; [exact Hin | lia].
Qed.

Lemma monitorRun_stopped (start : Z) (rs : list FetchOutcome) (m : Monitor)
    (w : World) :
  running m = false -> monitorRun start rs (m, w) = (m, w).
Proof.
  intros H. revert start. induction rs as [|r rs IH]; intros start;
    [reflexivity|].
  cbn [App.monitorRun]. unfold App.monitorTick at 1. rewrite H. apply IH.
Qed.

Lemma monitorRun_snoc (start : Z) (rs : list FetchOutcome) (r : FetchOutcome)
    (mw : Monitor * World) :
  monitorRun start (rs ++ [r]) mw
  = monitorTick (start + 10000 * (Z.of_nat (length rs) + 1)) r
      (monitorRun start rs mw).
Proof.
  revert start mw. induction rs as [|r' rs IH]; intros start mw.
  - simpl. replace (start + 10000 * (0 + 1)) with (start + 10000) by lia.
    reflexivity.
  - cbn [App.monitorRun List.app length]. rewrite IH.
    replace (start + 10000 + 10000 * (Z.of_nat (length rs) + 1))
      with (start + 10000 * (Z.of_nat (S (length rs)) + 1)) by lia.
    reflexivity.
Qed.

Lemma roundPercent_mono (a b : Z) :
  a <= b -> roundPercent a totalExpectedTime <= roundPercent b totalExpectedTime.
Proof.
  intros H. unfold roundPercent, totalExpectedTime.
  apply Z.div_le_mono; lia.
Qed.

(** While the interval is set, the progress is the capped percentage of
    the elapsed time. *)
Lemma monitorRun_progress (rs : list FetchOutcome) :
  forall (start : Z) (m : Monitor) (w : World),
    (running m = true ->
     processingProgress (app w)
     = Z.min (roundPercent (elapsed m) totalExpectedTime) 95) ->
    running (fst (monitorRun start rs (m, w))) = true ->
    processingProgress (app (snd (monitorRun start rs (m, w))))
    = Z.min (roundPercent (elapsed (fst (monitorRun start rs (m, w))))
                          totalExpectedTime) 95.
Proof.
  induction rs as [|r rs IH]; intros start m w Hinv Hrun.
  - simpl in *. auto.
  - cbn [App.monitorRun] in *.
    destruct (running m) eqn:R.
    + destruct (monitorTick_steps (start + 10000) r m w R)
        as (He & _ & _ & Hp & _).
      destruct (monitorTick (start + 10000) r (m, w)) as [m1 w1] eqn:T.
      cbn [fst snd] in *. apply IH; [|exact Hrun].
      intros R1. rewrite (Hp R1), He. reflexivity.
    + rewrite (monitorTick_stopped typeErrorMessage parseInt10
                 photos_endpoint (start + 10000) r m w R) in Hrun.
      rewrite (monitorRun_stopped _ _ m w R) in Hrun.
      cbn [fst] in Hrun. congruence.
Qed.

(** X26. The progress never goes back: in a run of the monitor from its
    start, no tick lowers the processing progress. *)
Theorem monitor_progress_never_decreases (start now : Z)
    (rs : list FetchOutcome) (r : FetchOutcome) (w : World) :
  let started := (snd (startImageProcessingMonitor w),
                  fst (startImageProcessingMonitor w)) in
  processingProgress (app (snd (monitorRun start rs started)))
  <= processingProgress
       (app (snd (monitorTick now r (monitorRun start rs started)))).
Proof.
  intros started.
  destruct (running (fst (monitorRun start rs started))) eqn:R.
  - assert (Hp := monitorRun_progress rs start (fst started) (snd started)).
    change (fst started, snd started) with started in Hp.
    rewrite Hp; [|intros _; reflexivity | exact R].
    destruct (monitorRun start rs started) as [m1 w1] eqn:B.
    cbn [fst snd] in *.
    destruct (monitorTick_steps now r m1 w1 R) as (_ & _ & _ & Hrun & Hdone & _).
    destruct (running (fst (monitorTick now r (m1, w1)))) eqn:R1.
    + rewrite (Hrun eq_refl).
      apply Z.min_le_compat_r. apply roundPercent_mono. lia.
    + destruct (Hdone eq_refl) as (-> & _).
      pose proof (Z.le_min_r (roundPercent (elapsed m1) totalExpectedTime) 95).
      lia.
  - destruct (monitorRun start rs started) as [m1 w1] eqn:B.
    cbn [fst snd] in *. unfold App.monitorTick. rewrite R.
    apply Z.le_refl.
Qed.




End ComponentProperties.

(** *** Concrete runs for the further properties *)



Lemma expiry_check_after_exchange_witness :
  Auth.expiryCheck 2000
    (Auth.checkAuthFromHash Sample.noDecoder 1000 Sample.windowWithCode)
  = Auth.checkAuthFromHash Sample.noDecoder 1000 Sample.windowWithCode
  /\ Auth.authStatus
       (Auth.expiryCheck 3601000
          (Auth.checkAuthFromHash Sample.noDecoder 1000
             Sample.windowWithCode))
     = Auth.emptyAuthStatus.
Proof.
  split.
  - exact (proj1
      (expiry_check_after_exchange Sample.noDecoder 1000 2000 "abc123"
         Sample.windowWithCode eq_refl eq_refl) eq_refl).
  - apply (proj2
      (expiry_check_after_exchange Sample.noDecoder 1000 3601000 "abc123"
         Sample.windowWithCode eq_refl eq_refl)).
    discriminate.
Defined.

Lemma exchange_consumes_code_witness :
  Auth.token
    (Auth.authStatus
       (Auth.checkAuthFromHash Sample.noDecoder 1000 Sample.windowWithCode))
  = Some "id-abc123".
Proof.
  exact (proj1 (proj2 (proj2
    (exchange_consumes_code Sample.noDecoder 1000 1000 "abc123" "abc123"
       Sample.windowWithCode Sample.windowWithCode
       eq_refl eq_refl eq_refl eq_refl)))).
Defined.

Lemma unreadable_storage_witness :
  Auth.localStorage
    (Auth.checkAuthFromHash Sample.noDecoder 1000
       (Sample.windowWith (Some Auth.Malformed)))
  = None
  /\ Auth.localStorage
       (Auth.checkAuthFromHash Sample.noDecoder 1000
          (Sample.windowWith (Some Auth.EmptyText)))
     = Some Auth.EmptyText.
Proof.
  split.
  - exact (proj2 (proj1
      (unreadable_storage Sample.noDecoder 1000
         (Sample.windowWith (Some Auth.Malformed)) eq_refl) eq_refl)).
  - exact (proj1 (proj2
      (unreadable_storage Sample.noDecoder 1000
         (Sample.windowWith (Some Auth.EmptyText)) eq_refl) eq_refl)).
Defined.

Lemma authenticated_session_is_stored_witness :
  Auth.username (Auth.authStatus Sample.signedIn) <> "".
Proof.
  exact (proj1
    (authenticated_session_is_stored Sample.noDecoder 1000 Sample.signedIn
       (Auth.reach_step Sample.noDecoder 1000 1000 Auth.OpCheckAuth
          Sample.windowWithCode
          (Auth.reach_fresh Sample.noDecoder 1000 (Some "abc123"))
          (Z.le_refl 1000))
       eq_refl)).
Defined.

Lemma parseLine_assignment_witness :
  EnvLoader.parseLine [] "  API.KEY = secret value  "
  = [("API.KEY", "secret value  ")].
Proof.
  exact (parseLine_assignment [] "  " "API.KEY" " " " " "secret value  " ""
           eq_refl eq_refl (fun H => eq_ind "API.KEY"
              (fun s => match s with EmptyString => False | _ => True end)
              I "" H)
           eq_refl eq_refl eq_refl eq_refl eq_refl eq_refl).
Defined.

Lemma parseLine_without_equals_witness :
  EnvLoader.parseLine [("A", "1")] "export PATH" = [("A", "1")].
Proof.
  exact (parseLine_without_equals [("A", "1")] "export PATH" eq_refl).
Defined.

Lemma parseEnv_skips_comments_witness :
  EnvLoader.parseEnv (EnvLoader.joinLines Sample.envLines)
  = EnvLoader.parseLine [] "COGNITO_REGION=us-east-2".
Proof.
  apply (parseEnv_skips_comments Sample.envLines).
  repeat constructor.
Defined.

Lemma parseEnv_last_assignment_witness :
  EnvLoader.getProperty "COGNITO_REGION"
    (EnvLoader.parseEnv
       (EnvLoader.joinLines
          (Sample.envLines ++ ["COGNITO_REGION=eu-west-1"])))
  = Some "eu-west-1".
Proof.
  refine (proj1
    (parseEnv_last_assignment Sample.envLines "COGNITO_REGION" "eu-west-1"
       "OTHER" _ eq_refl _ _ eq_refl eq_refl _)).
  - repeat constructor.
  - discriminate.
  - discriminate.
  - discriminate.
Defined.

Lemma getEnv_precedence_witness :
  Config.getEnv (Some [("COGNITO_REGION", "")])
    (Some [("COGNITO_REGION", "eu-west-1")]) "COGNITO_REGION" "us-east-1"
  = "eu-west-1".
Proof.
  apply (proj1 (proj2
    (getEnv_precedence (Some [("COGNITO_REGION", "")])
       (Some [("COGNITO_REGION", "eu-west-1")]) "COGNITO_REGION"
       "us-east-1"))).
  - right. reflexivity.
  - reflexivity.
  - discriminate.
Defined.


Lemma null_item_fails_listing_witness :
  App.photos
    (App.app
       (Sample.fetchPhotos
          (App.Response true
             (App.Json (Sample.listing [Sample.fullItem; Json.JNull])))
          Sample.showingOnePhoto))
  = [Sample.photo1].
Proof.
  refine (proj1
    (null_item_fails_listing Sample.typeErrorMessage Sample.parseInt10
       Sample.photosEndpoint
       (Sample.listing [Sample.fullItem; Json.JNull])
       [Sample.fullItem; Json.JNull] Sample.showingOnePhoto eq_refl _)).
  apply Exists_cons_tl. apply Exists_cons_hd. reflexivity.
Defined.

Lemma notification_fetches_or_clears_witness :
  App.photos
    (App.app
       (App.onAuthStatusChanged Sample.typeErrorMessage Sample.parseInt10
          Sample.photosEndpoint Auth.emptyAuthStatus
          (App.FetchRejected "offline") Sample.showingOnePhoto))
  = [].
Proof.
  apply (proj1 (proj2
    (proj2 (proj2 (proj2 (proj2
       (notification_fetches_or_clears Sample.typeErrorMessage
          Sample.parseInt10 Sample.photosEndpoint Auth.emptyAuthStatus
          (App.FetchRejected "offline") Sample.showingOnePhoto))))
     eq_refl))).
  reflexivity.
Defined.

Lemma exchange_loads_gallery_witness :
  App.requests
    (App.deliver Sample.typeErrorMessage Sample.parseInt10
       Sample.photosEndpoint
       [(Auth.authStatus Sample.signedIn, App.FetchRejected "offline");
        (Auth.authStatus Sample.signedIn, App.FetchRejected "offline")]
       Sample.showingOnePhoto)
  = [App.Get Sample.photosEndpoint; App.Get Sample.photosEndpoint].
Proof.
  exact (proj1 (proj2
    (exchange_loads_gallery Sample.typeErrorMessage Sample.parseInt10
       Sample.photosEndpoint Sample.noDecoder 1000 "abc123"
       Sample.windowWithCode (App.FetchRejected "offline")
       (App.FetchRejected "offline") Sample.showingOnePhoto
       eq_refl eq_refl))).
Defined.

Lemma upload_request_witness :
  App.requests
    (fst (Sample.uploadFile 1000 (Some "id-abc") (App.XhrError [])
            Sample.withFile))
  = [App.Put "https://api.example/bucket/1000-cat.png" "image/png"
             (Some "Bearer id-abc") Sample.file1].
Proof.
  exact (upload_request Sample.uploadEndpoint 1000 (Some "id-abc")
           (App.XhrError []) Sample.file1 Sample.withFile eq_refl).
Defined.

Lemma upload_outcomes_witness :
  snd (Sample.uploadFile 1000 None (App.XhrLoad [App.Percent 100] 204 "")
         Sample.withFile)
  = Some (App.mkMonitor 1 0 true)
  /\ snd (Sample.uploadFile 1000 None (App.XhrLoad [] 403 "Forbidden")
            Sample.withFile)
     = None.
Proof.
  split.
  - apply (proj1 (proj2 (proj2
      (upload_outcomes Sample.uploadEndpoint 1000 None
         (App.XhrLoad [App.Percent 100] 204 "") Sample.file1 Sample.withFile
         eq_refl)))).
    reflexivity.
  - apply (proj2 (proj2 (proj2
      (upload_outcomes Sample.uploadEndpoint 1000 None
         (App.XhrLoad [] 403 "Forbidden") Sample.file1 Sample.withFile
         eq_refl)))).
    reflexivity.
Defined.

Lemma reopen_during_close_witness :
  App.showModal
    (App.app
       (App.advanceTo 300
          (App.openPhotoModal Sample.photo1
             (App.closePhotoModal 0 Sample.withModal))))
  = true
  /\ App.selectedPhoto
       (App.app
          (App.advanceTo 300
             (App.openPhotoModal Sample.photo1
                (App.closePhotoModal 0 Sample.withModal))))
     = None.
Proof.
  split.
  - exact (proj1
      (reopen_during_close 0 300 Sample.photo1 Sample.withModal
         (Z.le_refl 300))).
  - exact (proj1 (proj2
      (reopen_during_close 0 300 Sample.photo1 Sample.withModal
         (Z.le_refl 300)))).
Defined.

Lemma close_defers_clearing_witness :
  App.selectedPhoto
    (App.app (App.advanceTo 299 (App.closePhotoModal 0 Sample.withModal)))
  = Some Sample.photo1.
Proof.
  refine (proj1 (proj2
    (close_defers_clearing 0 299 Sample.withModal eq_refl _))).
  intros due H. destruct H.
Defined.

Lemma processing_display_is_dismissed_witness :
  App.processingImage
    (App.app
       (App.advanceTo 72000
          (snd (Sample.monitorTick 70000 (App.FetchRejected "offline")
                  (Sample.lateMonitor, Sample.showingOnePhoto)))))
  = false
  /\ App.uploadSuccess
       (App.app
          (App.advanceTo 77000
             (snd (Sample.monitorTick 70000 (App.FetchRejected "offline")
                     (Sample.lateMonitor, Sample.showingOnePhoto)))))
     = false.
Proof.
  split.
  - apply (proj1
      (processing_display_is_dismissed Sample.typeErrorMessage
         Sample.parseInt10 Sample.photosEndpoint 70000 72000
         (App.FetchRejected "offline") Sample.lateMonitor
         Sample.showingOnePhoto eq_refl eq_refl)).
    discriminate.
  - apply (proj2
      (processing_display_is_dismissed Sample.typeErrorMessage
         Sample.parseInt10 Sample.photosEndpoint 70000 77000
         (App.FetchRejected "offline") Sample.lateMonitor
         Sample.showingOnePhoto eq_refl eq_refl)).
    discriminate.
Defined.

